(** * gs-exp-node: the post/like HTTP handlers of [server.js]

    A shallow embedding of the six Express route handlers of [server.js]
    (and of the revision of the same file that has no like routes), of the
    JavaScript built-ins they call ([String.prototype.trim], [parseInt],
    truthiness, [||]) and of the table store they talk to, followed by the
    properties of the handlers.

    Conventions.
    - A JavaScript string is the list of its UTF-16 code units.
    - A JavaScript number produced by [parseInt] is its exact integer value,
      [None] standing for [NaN]; the rounding of integers beyond 2^53 is not
      modelled.
    - A key of a table is an integer of the 32-bit range of the [SERIAL]
      column of [migration.sql]; the storage refuses any other integer.
    - A text column refuses a string with U+0000 and stores a surrogate
      without its partner as U+FFFD.
    - A request body or query is the object that [express.json()] or the
      query parser made of it, as the list of its properties.
    - A handler runs from its first statement to its response without another
      request in between: every [await] is a plain call.
    - A thrown value is an [exn]; [try ... catch] is [try_catch].
    - The storage client and the [Like] table are not in the sources; they
      are modelled from the spec, and what the spec leaves open about them
      is a parameter ([Client]). *)

From Stdlib Require Import ZArith NArith QArith List String Ascii Bool Lia.
From Stdlib Require Import Permutation Sorted.
Import ListNotations.

Set Warnings "-register-all".

Local Open Scope Z_scope.

(** ** JavaScript strings *)

Module JsString.

Definition jsstring := list N.

(** An ASCII literal as a JavaScript string. *)
Definition lit (s : string) : jsstring :=
  map N_of_ascii (list_ascii_of_string s).

Definition in_range (lo hi c : N) : bool := ((lo <=? c) && (c <=? hi))%N.

(** WhiteSpace and LineTerminator of ECMAScript: TAB, LF, VT, FF, CR, SP,
    NBSP, the Unicode space separators, LS, PS and the byte order mark. *)
Definition is_white_space (c : N) : bool :=
  in_range 9 13 c || (c =? 32)%N || (c =? 160)%N || (c =? 5760)%N
  || in_range 8192 8202 c || (c =? 8232)%N || (c =? 8233)%N
  || (c =? 8239)%N || (c =? 8287)%N || (c =? 12288)%N || (c =? 65279)%N.

Fixpoint trimStart (s : jsstring) : jsstring :=
  match s with
  | [] => []
  | c :: r => if is_white_space c then trimStart r else s
  end.

Definition trimEnd (s : jsstring) : jsstring := rev (trimStart (rev s)).

(** [String.prototype.trim]. *)
Definition trim (s : jsstring) : jsstring := trimEnd (trimStart s).

Definition is_empty (s : jsstring) : bool :=
  match s with [] => true | _ => false end.

Definition eqb (a b : jsstring) : bool :=
  if list_eq_dec N.eq_dec a b then true else false.

(** *** [parseInt] with one argument *)

Definition is_decimal_digit (c : N) : bool := in_range 48 57 c.

(** The value of a code unit as a digit in [radix], if it is one. *)
Definition digit_value (radix : Z) (c : N) : option Z :=
  let v :=
    if in_range 48 57 c then Some (Z.of_N c - 48)
    else if in_range 97 122 c then Some (Z.of_N c - 87)
    else if in_range 65 90 c then Some (Z.of_N c - 55)
    else None in
  match v with
  | Some d => if d <? radix then Some d else None
  | None => None
  end.

(** The longest prefix of radix-[radix] digits, as digit values. *)
Fixpoint take_digits (radix : Z) (s : jsstring) : list Z :=
  match s with
  | [] => []
  | c :: r =>
      match digit_value radix c with
      | Some d => d :: take_digits radix r
      | None => []
      end
  end.

Definition digits_value (radix : Z) (ds : list Z) : Z :=
  fold_left (fun acc d => acc * radix + d) ds 0.

(** Sign and rest: a leading [-] (code unit 45) gives sign -1, and a leading
    [+] (43) or [-] is removed. *)
Definition strip_sign (s : jsstring) : Z * jsstring :=
  match s with
  | c :: r =>
      if (c =? 45)%N then (-1, r)
      else if (c =? 43)%N then (1, r)
      else (1, s)
  | [] => (1, s)
  end.

(** Radix and rest: a leading [0x] or [0X] (48, then 120 or 88) selects
    radix 16 and is removed. *)
Definition strip_prefix (s : jsstring) : Z * jsstring :=
  match s with
  | c0 :: c1 :: r =>
      if (c0 =? 48)%N && ((c1 =? 120)%N || (c1 =? 88)%N) then (16, r)
      else (10, s)
  | _ => (10, s)
  end.

(** [parseInt(s)]: [None] is [NaN]. *)
Definition parseInt (s : jsstring) : option Z :=
  let (sign, s1) := strip_sign (trimStart s) in
  let (radix, s2) := strip_prefix s1 in
  match take_digits radix s2 with
  | [] => None
  | ds => Some (sign * digits_value radix ds)
  end.

End JsString.
Import JsString.

(** ** JavaScript values, truthiness and thrown values *)

Module Js.

(** A parsed JSON value, or [undefined] for a property that is not there.
    The handlers only test a number for truthiness. *)
Inductive value : Type :=
| VUndefined
| VNull
| VBool (b : bool)
| VNum (q : Q)
| VStr (s : jsstring)
| VArr (items : list value)
| VObj (fields : list (string * value)).

(** ToBoolean. *)
Definition truthy (v : value) : bool :=
  match v with
  | VUndefined | VNull => false
  | VBool b => b
  | VNum q => negb (Qeq_bool q 0)
  | VStr s => negb (is_empty s)
  | VArr _ | VObj _ => true
  end.

(** [a || b]. *)
Definition or_else (a b : value) : value := if truthy a then a else b.

(** The own properties of a parsed JSON object, in source order; in
    [JSON.parse] a later duplicate key replaces an earlier one. *)
Definition object := list (string * value).

Definition get (o : object) (k : string) : value :=
  match find (fun kv => String.eqb k (fst kv)) (rev o) with
  | Some kv => snd kv
  | None => VUndefined
  end.

(** What the handlers can catch: a [TypeError] of the language, an error of
    the storage client that carries a [code], the storage client's
    rejection of an ill-typed argument, which carries none, and any other
    error of the storage (a value that a column cannot hold), whose code, if
    it has one, is none of those the handlers test for. *)
Inductive exn : Type :=
| TypeError
| PrismaKnownError (code : string)
| PrismaValidationError
| PrismaOtherError.

(** [error.code], as far as the handlers can tell codes apart. *)
Definition code_of (e : exn) : option string :=
  match e with
  | PrismaKnownError c => Some c
  | TypeError | PrismaValidationError | PrismaOtherError => None
  end.

(** [error.code === c]. *)
Definition code_is (e : exn) (c : string) : bool :=
  match code_of e with
  | Some c' => String.eqb c' c
  | None => false
  end.

End Js.
Import Js.

(** ** The tables *)

(** A row of [Post], as [migration.sql] creates the table. Timestamps are
    milliseconds. *)
Record Post : Type := mkPost {
  post_id : Z;
  post_content : jsstring;
  post_imageUrl : option jsstring;
  post_userId : option jsstring;
  post_createdAt : Z;
  post_updatedAt : Z
}.

(** Modelled from the spec: the [Like] table, whose declaration is not in
    the sources. A row has its own key, the key of the post it references
    and a text user identifier; the pair (postId, userId) is unique. *)
Record Like : Type := mkLike {
  like_id : Z;
  like_postId : Z;
  like_userId : jsstring
}.

(** Modelled from the spec: what the storage does with the likes of a post
    that is deleted is left open there. [Cascade] deletes them with the
    post, [Restrict] refuses the deletion while one exists. *)
Inductive ref_action : Type := Cascade | Restrict.

(** The store: both tables, and the next key of each. *)
Record Store : Type := mkStore {
  posts : list Post;
  likes : list Like;
  post_seq : Z;
  like_seq : Z
}.

Definition empty_store : Store :=
  {| posts := []; likes := []; post_seq := 1; like_seq := 1 |}.

(** The range of a [SERIAL] ([INT4]) column. *)
Definition int4 (z : Z) : bool := (-2147483648 <=? z) && (z <=? 2147483647).

Arguments int4 : simpl never.

(** The row [p] is the one the key [id] finds; a key is an integer of the
    column's range. *)
Definition post_has_id (id : Z) (p : Post) : bool := int4 id && (post_id p =? id).

Definition like_of_post (postId : Z) (l : Like) : bool := like_postId l =? postId.

(** A like of post [postId] whose user passes [f]. *)
Definition like_selected (postId : Z) (f : jsstring -> bool) (l : Like) : bool :=
  (like_postId l =? postId) && f (like_userId l).

(** The like of post [postId] by user [userId]. *)
Definition like_matches (postId : Z) (userId : jsstring) (l : Like) : bool :=
  like_selected postId (fun u => JsString.eqb u userId) l.

(** ** Handlers as computations over the store *)

Module Handler.

(** A computation reads and writes the store and returns or throws. *)
Definition M (A : Type) : Type := Store -> (exn + A) * Store.

Definition ret {A} (a : A) : M A := fun st => (inr a, st).

Definition throw {A} (e : exn) : M A := fun st => (inl e, st).

Definition bind {A B} (m : M A) (k : A -> M B) : M B :=
  fun st =>
    match m st with
    | (inl e, st') => (inl e, st')
    | (inr a, st') => k a st'
    end.

(** [try { m } catch (error) { h error }], for a catch block that responds
    without touching the store, as every catch block of [server.js] does. *)
Definition try_catch {A} (m : M A) (h : exn -> A) : Store -> A * Store :=
  fun st =>
    match m st with
    | (inl e, st') => (h e, st')
    | (inr a, st') => (a, st')
    end.

End Handler.
Import Handler.

Notation "x <- m ;; k" := (bind m (fun x => k))
  (at level 61, m at next level, right associativity).
Notation "m ;;; k" := (bind m (fun _ => k))
  (at level 61, right associativity).

(** ** The storage client

    Modelled from the spec: the query interface of the relational store
    (the generated client and its schema are not in the sources): insert
    with returning, find-many with order and include, delete by id with a
    distinct not-found signal, count with filter, delete-many by filter, and
    a distinct uniqueness-violation signal. A statement that throws leaves
    both tables as they were. Failures that do not depend on the tables'
    contents (a lost connection) are outside the model. *)

Module Prisma.

(** Modelled from the spec: what neither the sources nor the spec fix about
    the storage client, as parameters of the model. [on_post_delete] is the
    referential action of [Like.postId]. [other_user_filter] is what the
    client makes of a [where: { userId }] argument that is not a string:
    [None] when it refuses the argument, otherwise the users the argument
    selects (the client also reads objects as filter conditions). *)
Record Client : Type := mkClient {
  on_post_delete : ref_action;
  other_user_filter : value -> option (jsstring -> bool)
}.

(** A client that refuses every [userId] filter that is not a string. *)
Definition strict_client (act : ref_action) : Client :=
  mkClient act (fun _ => None).

(** The users a [where: { userId }] argument selects: for a string, the
    user of that name. *)
Definition user_filter (c : Client) (v : value) : option (jsstring -> bool) :=
  match v with
  | VStr u => Some (fun x => JsString.eqb x u)
  | _ => other_user_filter c v
  end.

Definition P2002 : string := "P2002".  (* unique constraint failed *)
Definition P2003 : string := "P2003".  (* foreign key constraint failed *)
Definition P2025 : string := "P2025".  (* record not found *)

(** Modelled from the spec: a required text argument; the client refuses
    any other value before it reaches the tables. *)
Definition text_arg (v : value) : option jsstring :=
  match v with
  | VStr s => Some s
  | _ => None
  end.

(** Modelled from the spec: a nullable text argument. *)
Definition nullable_text_arg (v : value) : option (option jsstring) :=
  match v with
  | VStr s => Some (Some s)
  | VNull => Some None
  | _ => None
  end.

Definition is_high_surrogate (c : N) : bool := in_range 55296 56319 c.

Definition is_low_surrogate (c : N) : bool := in_range 56320 57343 c.

(** The string as it reaches the store in UTF-8 and comes back: a surrogate
    without its partner becomes U+FFFD (65533). *)
Fixpoint toWellFormed (s : jsstring) : jsstring :=
  match s with
  | [] => []
  | c :: r =>
      if is_high_surrogate c then
        match r with
        | d :: r' =>
            if is_low_surrogate d then c :: d :: toWellFormed r'
            else 65533%N :: toWellFormed r
        | [] => [65533%N]
        end
      else if is_low_surrogate c then 65533%N :: toWellFormed r
      else c :: toWellFormed r
  end.

Definition has_nul (s : jsstring) : bool := existsb (fun c => (c =? 0)%N) s.

(** What a [TEXT] column of [migration.sql] holds of a string: nothing when
    the string has U+0000, which the column refuses. *)
Definition text_column (s : jsstring) : option jsstring :=
  if has_nul s then None else Some (toWellFormed s).

Definition nullable_text_column (o : option jsstring) : option (option jsstring) :=
  match o with
  | None => Some None
  | Some s =>
      match text_column s with
      | Some s' => Some (Some s')
      | None => None
      end
  end.

(** Modelled from the spec: insert with returning,
    [prisma.post.create({ data: { content, imageUrl, userId } })]. The key
    comes from the table's sequence, as long as it has a key of the column's
    range to give, and both timestamps from the clock. *)
Definition post_create (now : Z) (content imageUrl userId : value) : M Post :=
  fun st =>
    match text_arg content, nullable_text_arg imageUrl, nullable_text_arg userId with
    | Some c, Some i, Some u =>
        match text_column c, nullable_text_column i, nullable_text_column u with
        | Some c', Some i', Some u' =>
            if int4 (post_seq st) then
              let p := mkPost (post_seq st) c' i' u' now now in
              (inr p, {| posts := posts st ++ [p];
                         likes := likes st;
                         post_seq := post_seq st + 1;
                         like_seq := like_seq st |})
            else (inl PrismaOtherError, st)
        | _, _, _ => (inl PrismaOtherError, st)
        end
    | _, _, _ => (inl PrismaValidationError, st)
    end.

Definition remove_post (id : Z) (ps : list Post) : list Post :=
  filter (fun p => negb (post_has_id id p)) ps.

Definition remove_likes_of (id : Z) (ls : list Like) : list Like :=
  filter (fun l => negb (like_of_post id l)) ls.

(** Modelled from the spec: delete by id,
    [prisma.post.delete({ where: { id } })], with its not-found signal for a
    key that no row has; an integer that is no key is refused with another
    error. *)
Definition post_delete (c : Client) (id : Z) : M unit :=
  fun st =>
    if negb (int4 id) then (inl PrismaOtherError, st)
    else if existsb (post_has_id id) (posts st) then
      match on_post_delete c with
      | Cascade =>
          (inr tt, {| posts := remove_post id (posts st);
                      likes := remove_likes_of id (likes st);
                      post_seq := post_seq st;
                      like_seq := like_seq st |})
      | Restrict =>
          if existsb (like_of_post id) (likes st)
          then (inl (PrismaKnownError P2003), st)
          else (inr tt, {| posts := remove_post id (posts st);
                           likes := likes st;
                           post_seq := post_seq st;
                           like_seq := like_seq st |})
      end
    else (inl (PrismaKnownError P2025), st).

(** Modelled from the spec: insert into [Like],
    [prisma.like.create({ data: { postId, userId } })], with its
    uniqueness-violation signal; the referenced post must exist, and an
    integer that is no key is refused. *)
Definition like_create (postId : Z) (userId : value) : M Like :=
  fun st =>
    match text_arg userId with
    | None => (inl PrismaValidationError, st)
    | Some u =>
        if negb (int4 postId) then (inl PrismaOtherError, st)
        else if existsb (like_matches postId u) (likes st)
        then (inl (PrismaKnownError P2002), st)
        else if negb (existsb (post_has_id postId) (posts st))
        then (inl (PrismaKnownError P2003), st)
        else
          let l := mkLike (like_seq st) postId u in
          (inr l, {| posts := posts st;
                     likes := likes st ++ [l];
                     post_seq := post_seq st;
                     like_seq := like_seq st + 1 |})
    end.

Definition count_likes (postId : Z) (ls : list Like) : Z :=
  Z.of_nat (List.length (filter (like_of_post postId) ls)).

(** Modelled from the spec: count with filter,
    [prisma.like.count({ where: { postId } })]; an integer that is no key is
    refused. *)
Definition like_count (postId : Z) : M Z :=
  fun st =>
    if negb (int4 postId) then (inl PrismaOtherError, st)
    else (inr (count_likes postId (likes st)), st).

(** Modelled from the spec: delete-many by filter,
    [prisma.like.deleteMany({ where: { postId, userId } })]: the number of
    rows deleted, which may be zero; an integer that is no key is
    refused. *)
Definition like_deleteMany (c : Client) (postId : Z) (userId : value) : M Z :=
  fun st =>
    match user_filter c userId with
    | None => (inl PrismaValidationError, st)
    | Some f =>
        if negb (int4 postId) then (inl PrismaOtherError, st)
        else
        (inr (Z.of_nat (List.length (filter (like_selected postId f) (likes st)))),
         {| posts := posts st;
            likes := filter (fun l => negb (like_selected postId f l)) (likes st);
            post_seq := post_seq st;
            like_seq := like_seq st |})
    end.

(** A post as [findMany] returns it with
    [include: { _count: { select: { likes: true } }, likes: ... }]:
    [with_likes] is [None] when [likes: false] was asked, otherwise the
    selected ids of the likes that pass the [where]. *)
Record PostWithLikes : Type := mkPostWithLikes {
  the_post : Post;
  count_of_likes : Z;
  with_likes : option (list Z)
}.

(** The direction of an [orderBy]. *)
Inductive direction : Type := Asc | Desc.

(** An [orderBy] argument of [prisma.post.findMany]:
    [{ createdAt: "asc" }] or [{ createdAt: "desc" }]. *)
Inductive post_order : Type := CreatedAt (d : direction).

(** The rows come by ascending [order_key]. *)
Definition order_key (o : post_order) (p : Post) : Z :=
  match o with
  | CreatedAt Asc => post_createdAt p
  | CreatedAt Desc => - post_createdAt p
  end.

(** The place of a row among rows in order: before the first row whose key
    is not smaller, so before the rows with the same key. *)
Fixpoint insert_row (o : post_order) (p : Post) (l : list Post) : list Post :=
  match l with
  | [] => [p]
  | q :: r =>
      if order_key o p <=? order_key o q then p :: q :: r
      else q :: insert_row o p r
  end.

(** Modelled from the spec: find-many with order. The rows of the table by
    the [orderBy] argument, rows with the same key in the order in which
    they were inserted (the table lists its rows in that order): the spec's
    stable tie-break by insertion order. *)
Definition ordered_rows (o : post_order) (rows : list Post) : list Post :=
  fold_right (insert_row o) [] rows.

(** Modelled from the spec: find-many with order and include,
    [prisma.post.findMany({ orderBy, include })]; [likesArg] is [None] for
    [likes: false] and [Some userId] for
    [likes: { where: { userId }, select: { id: true } }]. *)
Definition post_findMany_include (c : Client) (o : post_order)
  (likesArg : option value) : M (list PostWithLikes) :=
  fun st =>
    match likesArg with
    | None =>
        (inr (map (fun p => mkPostWithLikes p (count_likes (post_id p) (likes st)) None)
                (ordered_rows o (posts st))), st)
    | Some v =>
        match user_filter c v with
        | None => (inl PrismaValidationError, st)
        | Some f =>
            (inr (map (fun p =>
                         mkPostWithLikes p (count_likes (post_id p) (likes st))
                           (Some (map like_id (filter (like_selected (post_id p) f) (likes st)))))
                      (ordered_rows o (posts st))), st)
        end
    end.

(** Modelled from the spec: [prisma.post.findMany({ orderBy })] of the
    revision without likes. *)
Definition post_findMany (o : post_order) : M (list Post) :=
  fun st => (inr (ordered_rows o (posts st)), st).

End Prisma.
Import Prisma.

(** ** Responses *)

(** An element of the list that [GET /api/posts] answers with. *)
Record PostView : Type := mkPostView {
  view_id : Z;
  view_content : jsstring;
  view_imageUrl : option jsstring;
  view_userId : option jsstring;
  view_createdAt : Z;
  view_updatedAt : Z;
  likeCount : Z;
  isLiked : bool
}.

Inductive payload : Type :=
| Html (text : string)
| ErrorJson (error : string)
| MessageJson (message : string)
| PostJson (post : Post)
| PostsJson (rows : list Post)
| ViewsJson (views : list PostView)
| LikeJson (likeCount : Z) (isLiked : bool).

Record Response : Type := respond {
  status : Z;
  body : payload
}.

(** [res.json(x)] and [res.send(x)] without [res.status] answer 200. *)
Definition ok (b : payload) : Response := respond 200 b.

(** ** The route handlers of [server.js] *)

Module Server.

(** [const PORT = 8888;] *)
Definition PORT : value := VNum (inject_Z 8888).

(** The process environment: text values by name. *)
Definition environment := list (string * jsstring).

Definition getenv (env : environment) (name : string) : value :=
  match find (fun kv => String.eqb name (fst kv)) env with
  | Some kv => VStr (snd kv)
  | None => VUndefined
  end.

(** The port [app.listen(PORT, ...)] is called with in a process whose
    environment is [env]. *)
Definition listen_port (env : environment) : value := PORT.

(** [GET /] *)
Definition get_root : Response :=
  ok (Html "<h1>おおほりは長野で研究しています</h1>").

(** [content.trim()]: a [TypeError] when [content] has no [trim] method,
    which is every value but a string (a value of a JSON body is never a
    function). *)
Definition call_trim (v : value) : M jsstring :=
  match v with
  | VStr s => ret (trim s)
  | _ => throw TypeError
  end.

(** [post.likes.length > 0] *)
Definition likes_nonempty (row : PostWithLikes) : M bool :=
  match with_likes row with
  | Some ids => ret (0 <? Z.of_nat (List.length ids))
  | None => throw TypeError
  end.

Definition format_post (userId : value) (row : PostWithLikes) : M PostView :=
  liked <- (if truthy userId then likes_nonempty row else ret false) ;;
  ret {| view_id := post_id (the_post row);
         view_content := post_content (the_post row);
         view_imageUrl := post_imageUrl (the_post row);
         view_userId := post_userId (the_post row);
         view_createdAt := post_createdAt (the_post row);
         view_updatedAt := post_updatedAt (the_post row);
         likeCount := count_of_likes row;
         isLiked := liked |}.

(** [rows.map(f)] for an [f] that may throw. *)
Fixpoint map_rows {A B} (f : A -> M B) (rows : list A) : M (list B) :=
  match rows with
  | [] => ret []
  | r :: rest => b <- f r ;; bs <- map_rows f rest ;; ret (b :: bs)
  end.

(** [GET /api/posts] *)
Definition list_posts (c : Client) (query : object) : Store -> Response * Store :=
  try_catch
    (let userId := get query "userId" in
     rows <- post_findMany_include c (CreatedAt Desc)
               (if truthy userId then Some userId else None) ;;
     formattedPosts <- map_rows (format_post userId) rows ;;
     ret (ok (ViewsJson formattedPosts)))
    (fun error => respond 500 (ErrorJson "投稿の取得に失敗しました")).

(** [GET /api/posts] as the relation of a store to its answer and the store
    it leaves. *)
Inductive get_posts (c : Client) (query : object) (st : Store)
  : Response * Store -> Prop :=
| get_posts_intro : get_posts c query st (list_posts c query st).

(** [POST /api/posts] at clock [now]. *)
Definition create_post (now : Z) (body : object) : Store -> Response * Store :=
  try_catch
    (let content := get body "content" in
     let imageUrl := get body "imageUrl" in
     let userId := get body "userId" in
     blank <- (if negb (truthy content) then ret true
               else t <- call_trim content ;; ret (is_empty t)) ;;
     if blank : bool then ret (respond 400 (ErrorJson "投稿内容を入力してください"))
     else
       t <- call_trim content ;;
       post <- post_create now (VStr t) (or_else imageUrl VNull) (or_else userId VNull) ;;
       ret (respond 201 (PostJson post)))
    (fun error => respond 500 (ErrorJson "投稿の作成に失敗しました")).

(** [DELETE /api/posts/:id] *)
Definition delete_post (c : Client) (id_param : jsstring)
  : Store -> Response * Store :=
  try_catch
    (match parseInt id_param with
     | None => ret (respond 400 (ErrorJson "無効なIDです"))
     | Some id =>
         post_delete c id ;;;
         ret (ok (MessageJson "投稿を削除しました"))
     end)
    (fun error =>
       if code_is error P2025
       then respond 404 (ErrorJson "投稿が見つかりません")
       else respond 500 (ErrorJson "投稿の削除に失敗しました")).

(** [POST /api/posts/:id/like] *)
Definition like_post (id_param : jsstring) (body : object)
  : Store -> Response * Store :=
  try_catch
    (let userId := get body "userId" in
     match parseInt id_param with
     | None => ret (respond 400 (ErrorJson "無効な投稿IDです"))
     | Some postId =>
         if negb (truthy userId)
         then ret (respond 400 (ErrorJson "ユーザーIDが必要です"))
         else
           like_create postId userId ;;;
           n <- like_count postId ;;
           ret (respond 201 (LikeJson n true))
     end)
    (fun error =>
       if code_is error P2002
       then respond 400 (ErrorJson "すでにいいねしています")
       else respond 500 (ErrorJson "いいねに失敗しました")).

(** [DELETE /api/posts/:id/like] *)
Definition unlike_post (c : Client) (id_param : jsstring) (body : object)
  : Store -> Response * Store :=
  try_catch
    (let userId := get body "userId" in
     match parseInt id_param with
     | None => ret (respond 400 (ErrorJson "無効な投稿IDです"))
     | Some postId =>
         if negb (truthy userId)
         then ret (respond 400 (ErrorJson "ユーザーIDが必要です"))
         else
           like_deleteMany c postId userId ;;;
           n <- like_count postId ;;
           ret (ok (LikeJson n false))
     end)
    (fun error => respond 500 (ErrorJson "いいねの削除に失敗しました")).

End Server.

(** ** The revision of [server.js] without like routes

    Its create and delete handlers are those of [Server], statement for
    statement. *)

Module ServerV0.

(** [const PORT = process.env.PORT || 8888;] *)
Definition PORT (env : Server.environment) : value :=
  or_else (Server.getenv env "PORT") (VNum (inject_Z 8888)).

Definition listen_port (env : Server.environment) : value := PORT env.

(** [GET /] *)
Definition get_root : Response :=
  ok (MessageJson "SNS API Server is running!").

(** [GET /api/posts] *)
Definition list_posts : Store -> Response * Store :=
  try_catch
    (rows <- post_findMany (CreatedAt Desc) ;;
     ret (ok (PostsJson rows)))
    (fun error => respond 500 (ErrorJson "投稿の取得に失敗しました")).

(** [GET /api/posts] as the relation of a store to its answer and the store
    it leaves. *)
Inductive get_posts (st : Store) : Response * Store -> Prop :=
| get_posts_intro : get_posts st (list_posts st).

Definition create_post := Server.create_post.

Definition delete_post := Server.delete_post.

End ServerV0.

Import Server.

(** ** The vocabulary of the properties *)

(** The content of a request is missing ([undefined] or [null]) or is a
    string that trims to the empty string. *)
Definition missing_or_blank (v : value) : Prop :=
  match v with
  | VUndefined | VNull => True
  | VStr s => trim s = []
  | _ => False
  end.


Definition add_post (p : Post) (st : Store) : Store :=
  {| posts := posts st ++ [p];
     likes := likes st;
     post_seq := post_seq st + 1;
     like_seq := like_seq st |}.

(** The answer of the list handler's catch block. *)
Definition fetch_failed : Response :=
  respond 500 (ErrorJson "投稿の取得に失敗しました").

(** The userId of a request is absent or a string. *)
Definition plain_user (v : value) : Prop :=
  match v with
  | VUndefined | VStr _ => True
  | _ => False
  end.

(** Whether the store holds a like of post [postId] by the user the query
    names. *)
Definition liked_by (st : Store) (userId : value) (postId : Z) : bool :=
  match userId with
  | VStr (c :: r) => existsb (like_matches postId (c :: r)) (likes st)
  | _ => false
  end.

(** The list element of post [p], [liked] telling the posts that count as
    liked. *)
Definition view_by (st : Store) (liked : Z -> bool) (p : Post) : PostView :=
  {| view_id := post_id p;
     view_content := post_content p;
     view_imageUrl := post_imageUrl p;
     view_userId := post_userId p;
     view_createdAt := post_createdAt p;
     view_updatedAt := post_updatedAt p;
     likeCount := count_likes (post_id p) (likes st);
     isLiked := liked (post_id p) |}.

Definition view_of (st : Store) (userId : value) (p : Post) : PostView :=
  view_by st (liked_by st userId) p.

(** The six fields of a post that a list element carries. *)
Definition post_of_view (v : PostView) : Post :=
  {| post_id := view_id v;
     post_content := view_content v;
     post_imageUrl := view_imageUrl v;
     post_userId := view_userId v;
     post_createdAt := view_createdAt v;
     post_updatedAt := view_updatedAt v |}.

(** The posts in the order of the list endpoint. *)
Definition listed (st : Store) : list Post := ordered_rows (CreatedAt Desc) (posts st).

(** The table lists its rows by ascending key, the order in which they
    were inserted. *)
Definition insertion_ordered (st : Store) : Prop :=
  StronglySorted (fun a b => post_id a < post_id b) (posts st).





Definition like_key (l : Like) : Z * jsstring := (like_postId l, like_userId l).

(** The content of a stored post: not empty, and trimmed. *)
Definition trimmed_text (s : jsstring) : Prop := s <> [] /\ trim s = s.

(** What holds of every store the handlers build from the empty one: post
    keys are distinct and below the sequence, the content of a post is
    trimmed and not empty, no two likes have the same (postId, userId), no
    like has an empty user, and every like references a post of the
    table. *)
Record wf_store (st : Store) : Prop := mk_wf {
  wf_post_ids : NoDup (map post_id (posts st));
  wf_post_seq : Forall (fun p => post_id p < post_seq st) (posts st);
  wf_post_content : Forall (fun p => trimmed_text (post_content p)) (posts st);
  wf_like_keys : NoDup (map like_key (likes st));
  wf_like_user : Forall (fun l => like_userId l <> []) (likes st);
  wf_like_post :
    Forall (fun l => existsb (post_has_id (like_postId l)) (posts st) = true) (likes st)
}.

Definition add_like (postId : Z) (u : jsstring) (st : Store) : Store :=
  {| posts := posts st;
     likes := likes st ++ [mkLike (like_seq st) postId u];
     post_seq := post_seq st;
     like_seq := like_seq st + 1 |}.

(** The store of the spec's example after its first request. *)
Definition one_post_store : Store :=
  mkStore [mkPost 1 (lit "hello") None None 1000 1000] [] 2 1.

(** Two posts created at the same instant. *)
Definition tie_store : Store :=
  mkStore [mkPost 1 (lit "a") None None 1000 1000;
           mkPost 2 (lit "b") None None 1000 1000] [] 3 1.

(** The store of the spec's example after the like of user [u1]. *)
Definition liked_store : Store :=
  mkStore [mkPost 1 (lit "hello") None None 1000 1000] [mkLike 1 1 (lit "u1")] 2 2.

(** The storage lets the post go: its likes go with it, or it has none. *)
Definition deletable (c : Client) (id : Z) (st : Store) : Prop :=
  on_post_delete c = Cascade \/ existsb (like_of_post id) (likes st) = false.

(** The value of a string of decimal digits. *)
Definition decimal_value (ds : jsstring) : Z :=
  digits_value 10 (map (fun d => Z.of_N d - 48) ds).

(** The segment does not open with the hexadecimal prefix. *)
Definition no_hex_prefix (ds : jsstring) (c : N) : Prop :=
  ~ (ds = [48%N] /\ (c = 120%N \/ c = 88%N)).

(** A request to one of the six routes; a create request comes with the
    clock's value at its insert. *)
Inductive request : Type :=
| GetRoot
| GetPosts (query : object)
| PostPosts (now : Z) (body : object)
| DeletePost (id_param : jsstring)
| PostLike (id_param : jsstring) (body : object)
| DeleteLike (id_param : jsstring) (body : object).

(** The answers and next stores of a request. *)
Inductive serve (c : Client) (st : Store) : request -> Response * Store -> Prop :=
| serve_root : serve c st GetRoot (get_root, st)
| serve_get_posts query out :
    get_posts c query st out -> serve c st (GetPosts query) out
| serve_post_posts now body :
    serve c st (PostPosts now body) (create_post now body st)
| serve_delete_post id_param :
    serve c st (DeletePost id_param) (delete_post c id_param st)
| serve_post_like id_param body :
    serve c st (PostLike id_param body) (like_post id_param body st)
| serve_delete_like id_param body :
    serve c st (DeleteLike id_param body) (unlike_post c id_param body st).

(** The stores the server reaches from the empty one. *)
Inductive reachable (c : Client) : Store -> Prop :=
| reach_empty : reachable c empty_store
| reach_serve st req out :
    reachable c st -> serve c st req out -> reachable c (snd out).

(** The stores a sequence of requests leads to from a store. *)
Inductive reaches (c : Client) : Store -> Store -> Prop :=
| reaches_here st : reaches c st st
| reaches_serve st req out st'' :
    serve c st req out -> reaches c (snd out) st'' -> reaches c st st''.

(** The keys of the posts and the next key start at 1, as a [SERIAL] column
    numbers its rows. *)
Definition keys_from_one (st : Store) : Prop :=
  1 <= post_seq st /\ Forall (fun p => 1 <= post_id p) (posts st).

(** The sum of the likeCount fields of a list answer. *)
Definition sum_like_counts (vs : list PostView) : Z :=
  fold_right (fun v acc => likeCount v + acc) 0 vs.


(** The number of likes of [ls] that reference the posts [ps], post by
    post. *)
Definition likes_referencing (ps : list Post) (ls : list Like) : Z :=
  fold_right (fun p acc => count_likes (post_id p) ls + acc) 0 ps.

(** The store after a post is created and deleted again: the tables are
    as before, and the post's key is spent. *)
Definition post_key_spent (st : Store) : Store :=
  {| posts := posts st;
     likes := likes st;
     post_seq := post_seq st + 1;
     like_seq := like_seq st |}.

(** ** Facts about the built-ins *)

Example parseInt_12 : parseInt (lit "12") = Some 12.
Proof. reflexivity. Qed.

Example parseInt_12abc : parseInt (lit "12abc") = Some 12.
Proof. reflexivity. Qed.

Example parseInt_hex : parseInt (lit "0x1F") = Some 31.
Proof. reflexivity. Qed.

Example parseInt_0xg : parseInt (lit "0xg") = None.
Proof. reflexivity. Qed.

Example get_last_duplicate :
  get [("userId"%string, VStr (lit "a")); ("userId"%string, VStr (lit "b"))] "userId"
  = VStr (lit "b").
Proof. reflexivity. Qed.

Example parseInt_neg : parseInt (lit "  -7.5") = Some (-7).
Proof. reflexivity. Qed.

Example trim_hello :
  trim ([32; 12288]%N ++ lit "hello world" ++ [9; 10]%N) = lit "hello world".
Proof. reflexivity. Qed.

Ltac run_handler :=
  unfold create_post, delete_post, like_post, unlike_post, list_posts,
    ServerV0.list_posts, try_catch, bind, ret, throw, call_trim,
    post_create, post_delete, like_create, like_count, like_deleteMany,
    post_findMany, ok.

Lemma trimStart_nil_iff (s : jsstring) :
  trimStart s = [] <-> forallb is_white_space s = true.
Proof.
  induction s as [|c r IH]; simpl.
  - tauto.
  - destruct (is_white_space c); simpl.
    + exact IH.
    + split; discriminate.
Qed.

Lemma trimEnd_nil_iff (s : jsstring) : trimEnd s = [] <-> s = [] \/ trimStart (rev s) = [].
Proof.
  unfold trimEnd. split.
  - intros H. right. apply (f_equal (@rev N)) in H.
    rewrite rev_involutive in H. exact H.
  - intros [-> | ->]; reflexivity.
Qed.

Lemma trimStart_head (s : jsstring) :
  match trimStart s with
  | [] => True
  | c :: _ => is_white_space c = false
  end.
Proof.
  induction s as [|c r IH]; simpl; [exact I|].
  destruct (is_white_space c) eqn:E; [exact IH | exact E].
Qed.

Lemma forallb_rev {A} (f : A -> bool) (l : list A) :
  forallb f (rev l) = forallb f l.
Proof.
  induction l as [|a l IH]; simpl; [reflexivity|].
  rewrite forallb_app, IH. simpl. rewrite andb_true_r. apply andb_comm.
Qed.

(** A string trims to the empty string exactly when it is made of white
    space only. *)
Lemma trim_nil_iff (s : jsstring) :
  trim s = [] <-> forallb is_white_space s = true.
Proof.
  unfold trim. rewrite <- trimStart_nil_iff. split.
  - intros H. apply trimEnd_nil_iff in H. destruct H as [H | H]; [exact H|].
    apply trimStart_nil_iff in H. rewrite forallb_rev in H.
    pose proof (trimStart_head s) as Hh.
    destruct (trimStart s) as [|c r]; [reflexivity|].
    simpl in H. rewrite Hh in H. discriminate.
  - intros ->. reflexivity.
Qed.

Lemma trimStart_fixed (s : jsstring) :
  match s with
  | [] => True
  | c :: _ => is_white_space c = false
  end ->
  trimStart s = s.
Proof.
  destruct s as [|c r]; simpl; [reflexivity|]. intros ->. reflexivity.
Qed.

Lemma trimStart_idempotent (s : jsstring) : trimStart (trimStart s) = trimStart s.
Proof. apply trimStart_fixed, trimStart_head. Qed.

Lemma trimEnd_idempotent (s : jsstring) : trimEnd (trimEnd s) = trimEnd s.
Proof.
  unfold trimEnd. rewrite rev_involutive, trimStart_idempotent. reflexivity.
Qed.

Lemma trimStart_snoc (l : jsstring) (c : N) :
  is_white_space c = false -> trimStart (l ++ [c]) = trimStart l ++ [c].
Proof.
  intros Hc. induction l as [|a l IH]; simpl.
  - rewrite Hc. reflexivity.
  - destruct (is_white_space a); [exact IH | reflexivity].
Qed.

(** Trimming the end keeps a first code unit that is not white space. *)
Lemma trimEnd_head (c : N) (r : jsstring) :
  is_white_space c = false -> exists r', trimEnd (c :: r) = c :: r'.
Proof.
  intros Hc. unfold trimEnd. simpl. rewrite (trimStart_snoc _ c Hc).
  rewrite rev_app_distr. simpl. eexists. reflexivity.
Qed.

Lemma trim_idempotent (s : jsstring) : trim (trim s) = trim s.
Proof.
  unfold trim. pose proof (trimStart_head s) as Hh.
  destruct (trimStart s) as [|c r]; [reflexivity|].
  destruct (trimEnd_head c r Hh) as [r' Hr].
  assert (Hfix : trimStart (trimEnd (c :: r)) = trimEnd (c :: r)).
  { rewrite Hr. simpl. rewrite Hh. reflexivity. }
  rewrite Hfix. apply trimEnd_idempotent.
Qed.

(** A string that is not empty is its own [trim] exactly when neither its
    first nor its last code unit is white space. *)
Lemma rev_last (s : jsstring) (d : N) :
  s <> [] -> exists r, rev s = last s d :: r.
Proof.
  intros Hs. exists (rev (removelast s)).
  assert (E : rev s = rev (removelast s ++ [last s d])).
  { f_equal. apply app_removelast_last, Hs. }
  rewrite E, rev_app_distr. reflexivity.
Qed.

Lemma trim_fixed_ends (c : N) (r : jsstring) :
  trim (c :: r) = c :: r ->
  is_white_space c = false /\ is_white_space (last (c :: r) 0%N) = false.
Proof.
  intros H. unfold trim in H. pose proof (trimStart_head (c :: r)) as Hh.
  destruct (trimStart (c :: r)) as [|c' r'] eqn:Es.
  - discriminate H.
  - split.
    + destruct (trimEnd_head c' r' Hh) as [r'' Hr]. rewrite Hr in H.
      injection H as Hc _. subst c'. exact Hh.
    + unfold trimEnd in H. apply (f_equal (@rev N)) in H.
      rewrite rev_involutive in H.
      destruct (rev_last (c :: r) 0%N) as [t Ht]; [discriminate|].
      rewrite Ht in H. pose proof (trimStart_head (rev (c' :: r'))) as Hl.
      rewrite H in Hl. exact Hl.
Qed.

Lemma ends_trim_fixed (c : N) (r : jsstring) :
  is_white_space c = false ->
  is_white_space (last (c :: r) 0%N) = false ->
  trim (c :: r) = c :: r.
Proof.
  intros Hc Hl. unfold trim. cbn [trimStart]. rewrite Hc.
  unfold trimEnd. destruct (rev_last (c :: r) 0%N) as [t Ht]; [discriminate|].
  rewrite Ht. cbn [trimStart]. rewrite Hl, <- Ht. apply rev_involutive.
Qed.

Lemma last_cons (c : N) (l : jsstring) (d : N) :
  l <> [] -> last (c :: l) d = last l d.
Proof. destruct l; [contradiction | reflexivity]. Qed.

(** The last code unit of a string that went through a [TEXT] column is
    the one it had or U+FFFD. *)
Lemma toWellFormed_last (n : nat) (s : jsstring) (d : N) :
  (List.length s <= n)%nat ->
  s <> [] ->
  toWellFormed s <> []
  /\ (last (toWellFormed s) d = last s d \/ last (toWellFormed s) d = 65533%N).
Proof.
  revert s. induction n as [|n IH]; intros s Hn Hs.
  - destruct s; [contradiction | simpl in Hn; lia].
  - destruct s as [|c r]; [contradiction|]. simpl in Hn.
    assert (Hr : r <> [] ->
                 toWellFormed r <> []
                 /\ (last (toWellFormed r) d = last r d
                     \/ last (toWellFormed r) d = 65533%N)).
    { intros H. apply IH; [lia | exact H]. }
    assert (Hstep : forall x,
               (x :: toWellFormed r) <> []
               /\ (last (x :: toWellFormed r) d = last (x :: r) d \/
                   last (x :: toWellFormed r) d = 65533%N
                   \/ (r = [] /\ last (x :: toWellFormed r) d = x))).
    { intros x. split; [discriminate|]. destruct r as [|e r'].
      - right. right. split; reflexivity.
      - destruct Hr as [Hne Hl]; [discriminate|].
        rewrite (last_cons x _ d Hne). rewrite (last_cons x (e :: r') d); [|discriminate].
        tauto. }
    cbn [toWellFormed].
    destruct (is_high_surrogate c).
    + destruct r as [|e r']; [split; [discriminate | right; reflexivity]|].
      destruct (is_low_surrogate e).
      * split; [discriminate|]. destruct r' as [|f r''].
        { left. reflexivity. }
        destruct (IH (f :: r'')) as [Hne Hl]; [simpl in *; lia | discriminate |].
        rewrite (last_cons c _ d); [|discriminate].
        rewrite (last_cons e _ d Hne).
        change (last (c :: e :: f :: r'') d) with (last (f :: r'') d). exact Hl.
      * destruct (Hstep 65533%N) as [Hne [H | [H | [H _]]]]; try discriminate H.
        { split; [exact Hne|].
          rewrite (last_cons c (e :: r') d); [|discriminate].
          rewrite (last_cons 65533%N (e :: r') d) in H; [|discriminate]. tauto. }
        { split; [exact Hne | tauto]. }
    + destruct (is_low_surrogate c).
      * destruct (Hstep 65533%N) as [Hne [H | [H | [Hnil H]]]].
        { split; [exact Hne|]. destruct r as [|e r'].
          - right. reflexivity.
          - rewrite (last_cons c (e :: r') d); [|discriminate].
            rewrite (last_cons 65533%N (e :: r') d) in H; [|discriminate]. tauto. }
        { split; [exact Hne | tauto]. }
        { split; [exact Hne | tauto]. }
      * destruct (Hstep c) as [Hne [H | [H | [Hnil H]]]].
        { split; [exact Hne | tauto]. }
        { split; [exact Hne | tauto]. }
        { split; [exact Hne|]. subst r. left. reflexivity. }
Qed.

Lemma toWellFormed_head (c : N) (r : jsstring) :
  exists x t, toWellFormed (c :: r) = x :: t /\ (x = c \/ x = 65533%N).
Proof.
  cbn [toWellFormed]. destruct (is_high_surrogate c).
  - destruct r as [|e r'].
    + eexists _, _. split; [reflexivity | tauto].
    + destruct (is_low_surrogate e); eexists _, _; (split; [reflexivity | tauto]).
  - destruct (is_low_surrogate c); eexists _, _; (split; [reflexivity | tauto]).
Qed.

(** Trimmed text that is not empty stays so in a [TEXT] column. *)
Lemma trimmed_text_column (s : jsstring) :
  trimmed_text s -> trimmed_text (toWellFormed s).
Proof.
  intros [Hne Ht]. destruct s as [|c r]; [contradiction|].
  destruct (trim_fixed_ends c r Ht) as [Hc Hl].
  destruct (toWellFormed_head c r) as [x [t [Hx Hxc]]].
  destruct (toWellFormed_last (List.length (c :: r)) (c :: r) 0%N (le_n _)) as [_ Hlast];
    [discriminate|].
  rewrite Hx in *. split; [discriminate|].
  apply ends_trim_fixed.
  - destruct Hxc as [-> | ->]; [exact Hc | reflexivity].
  - destruct Hlast as [-> | ->]; [exact Hl | reflexivity].
Qed.

(** ** Creating a post *)

(** C2: a create-post request whose content is missing, empty or made of
    white space only is answered 400 with an error message, and the store is
    left as it was: no row is written. *)
Theorem create_post_blank_rejected (now : Z) (body : object) (st : Store) :
  missing_or_blank (get body "content") ->
  exists msg, create_post now body st = (respond 400 (ErrorJson msg), st).
Proof.
  intros H. run_handler.
  destruct (get body "content") as [| |b|q|s|l|o]; simpl in *; try contradiction.
  - eexists; reflexivity.
  - eexists; reflexivity.
  - destruct s as [|c r]; simpl; [eexists; reflexivity|].
    rewrite H. simpl. eexists; reflexivity.
Qed.

Lemma create_post_blank_rejected_witness :
  exists msg,
    create_post 1000 [("content"%string, VStr (lit "   "))] empty_store
    = (respond 400 (ErrorJson msg), empty_store).
Proof.
  apply (create_post_blank_rejected 1000 [("content"%string, VStr (lit "   "))] empty_store).
  reflexivity.
Defined.

(** C9: a create-post request whose content is truthy but not a string is
    answered 500, not 400: [content.trim()] throws and the catch block
    answers; the store is left as it was. *)
Theorem create_post_nonstring_content (now : Z) (body : object) (st : Store) :
  truthy (get body "content") = true ->
  (forall s, get body "content" <> VStr s) ->
  exists msg, create_post now body st = (respond 500 (ErrorJson msg), st).
Proof.
  intros Ht Hs. run_handler.
  destruct (get body "content") as [| |b|q|s|l|o]; simpl in *;
    try discriminate; try (rewrite Ht; simpl); try (eexists; reflexivity).
  exfalso. apply (Hs s). reflexivity.
Qed.

Lemma create_post_nonstring_content_witness :
  exists msg,
    create_post 1000 [("content"%string, VNum (inject_Z 5))] empty_store
    = (respond 500 (ErrorJson msg), empty_store).
Proof.
  apply (create_post_nonstring_content 1000 [("content"%string, VNum (inject_Z 5))] empty_store).
  - reflexivity.
  - intros s. discriminate.
Defined.


(** A create-post request whose content is a string that does not trim to
    the empty string goes to the storage with the trimmed content and the
    optional fields or null. *)
Lemma create_post_calls_storage (now : Z) (body : object) (st : Store) (s : jsstring) :
  get body "content" = VStr s ->
  trim s <> [] ->
  create_post now body st
  = try_catch
      (post <- post_create now (VStr (trim s)) (or_else (get body "imageUrl") VNull)
                 (or_else (get body "userId") VNull) ;;
       ret (respond 201 (PostJson post)))
      (fun error => respond 500 (ErrorJson "投稿の作成に失敗しました")) st.
Proof.
  intros Hc Ht. unfold create_post, try_catch, bind, ret, call_trim. rewrite Hc.
  assert (Hs : truthy (VStr s) = true).
  { destruct s as [|ch r]; [|reflexivity]. exfalso. apply Ht. reflexivity. }
  rewrite Hs. cbn [negb].
  destruct (trim s) as [|ch r] eqn:Et; [exfalso; apply Ht; reflexivity|].
  reflexivity.
Qed.




(** Nor is every request with non-blank content answered 201: a truthy
    optional field that is not a string is refused by the storage client. *)
Example create_post_numeric_imageUrl :
  fst (create_post 1000
         [("content"%string, VStr (lit "hi")); ("imageUrl"%string, VNum (inject_Z 5))]
         empty_store)
  = respond 500 (ErrorJson "投稿の作成に失敗しました").
Proof. reflexivity. Qed.

(** Nor does a text column hold every string: content with U+0000 is
    refused, and no row is written. *)
Example create_post_nul_content :
  create_post 1000 [("content"%string, VStr [97; 0; 98]%N)] empty_store
  = (respond 500 (ErrorJson "投稿の作成に失敗しました"), empty_store).
Proof. reflexivity. Qed.

(** A surrogate without its partner comes back as U+FFFD. *)
Example create_post_lone_surrogate :
  fst (create_post 1000 [("content"%string, VStr [97; 55296; 98]%N)] empty_store)
  = respond 201 (PostJson (mkPost 1 [97; 65533; 98]%N None None 1000 1000)).
Proof. reflexivity. Qed.

(** The example of the spec: [{content:"hello"}] on the empty store. *)
Example create_post_hello :
  create_post 1000 [("content"%string, VStr (lit "hello"))] empty_store
  = (respond 201 (PostJson (mkPost 1 (lit "hello") None None 1000 1000)),
     mkStore [mkPost 1 (lit "hello") None None 1000 1000] [] 2 1).
Proof. reflexivity. Qed.

(** ** Listing posts *)

Lemma nonempty_selection {A B} (f : A -> B) (g : A -> bool) (l : list A) :
  (0 <? Z.of_nat (List.length (map f (filter g l)))) = existsb g l.
Proof.
  induction l as [|a l IH]; simpl; [reflexivity|].
  destruct (g a); simpl; [|exact IH].
  apply Z.ltb_lt. lia.
Qed.

Lemma map_rows_unfiltered (st : Store) (userId : value) (ps : list Post) :
  truthy userId = false ->
  map_rows (format_post userId)
    (map (fun p => mkPostWithLikes p (count_likes (post_id p) (likes st)) None) ps) st
  = (inr (map (view_by st (fun _ => false)) ps), st).
Proof.
  intros Hf. induction ps as [|p ps IH]; simpl; [reflexivity|].
  unfold bind in *. unfold format_post at 1. unfold bind, ret. rewrite Hf.
  rewrite IH. reflexivity.
Qed.

Lemma map_rows_filtered (st : Store) (userId : value) (f : jsstring -> bool)
  (ps : list Post) :
  truthy userId = true ->
  map_rows (format_post userId)
    (map (fun p =>
            mkPostWithLikes p (count_likes (post_id p) (likes st))
              (Some (map like_id (filter (like_selected (post_id p) f) (likes st))))) ps) st
  = (inr (map (view_by st (fun id => existsb (like_selected id f) (likes st))) ps), st).
Proof.
  intros Ht. induction ps as [|p ps IH]; simpl; [reflexivity|].
  unfold bind in *. unfold format_post at 1. unfold bind, ret. rewrite Ht.
  unfold likes_nonempty, ret. cbn [with_likes the_post count_of_likes].
  rewrite IH. unfold view_by. rewrite nonempty_selection. reflexivity.
Qed.

(** The handler, whatever the query: the 500 of the catch block, or the
    rows in the order asked of the storage. *)
Lemma list_posts_cases (c : Client) (query : object) (st : Store) :
  list_posts c query st = (fetch_failed, st)
  \/ exists liked, list_posts c query st
                   = (ok (ViewsJson (map (view_by st liked) (listed st))), st).
Proof.
  unfold list_posts, try_catch, bind, post_findMany_include. fold (listed st).
  destruct (truthy (get query "userId")) eqn:Ht.
  - destruct (user_filter c (get query "userId")) as [f|].
    + right. eexists. rewrite (map_rows_filtered st _ f (listed st) Ht). reflexivity.
    + left. reflexivity.
  - right. eexists. rewrite (map_rows_unfiltered st _ (listed st) Ht). reflexivity.
Qed.

Lemma liked_by_falsy (st : Store) (userId : value) :
  truthy userId = false -> forall id, liked_by st userId id = false.
Proof.
  intros Hf id. destruct userId as [| |b|q|[|ch r]|l|o]; simpl in *;
    try reflexivity; discriminate.
Qed.

(** The handler on a query whose userId is falsy or a string. *)
Lemma list_posts_ok (c : Client) (query : object) (st : Store) :
  (truthy (get query "userId") = false \/ exists u, get query "userId" = VStr u) ->
  list_posts c query st
  = (ok (ViewsJson (map (view_of st (get query "userId")) (listed st))), st).
Proof.
  intros H. unfold list_posts, try_catch, bind, post_findMany_include. fold (listed st).
  destruct (truthy (get query "userId")) eqn:Ht.
  - destruct H as [H | [u Hu]]; [discriminate|].
    rewrite Hu in *. cbn [user_filter].
    rewrite (map_rows_filtered st (VStr u) _ (listed st) Ht).
    destruct u as [|ch r]; [discriminate Ht|]. reflexivity.
  - rewrite (map_rows_unfiltered st _ (listed st) Ht).
    assert (E : map (view_by st (fun _ => false)) (listed st)
                = map (view_of st (get query "userId")) (listed st)).
    { apply map_ext. intros p. unfold view_of, view_by.
      rewrite (liked_by_falsy st _ Ht). reflexivity. }
    rewrite E. reflexivity.
Qed.

Lemma plain_user_cases (v : value) :
  plain_user v -> truthy v = false \/ exists u, v = VStr u.
Proof.
  destruct v as [| |b|q|u|l|o]; simpl; try contradiction; intros _.
  - left. reflexivity.
  - right. exists u. reflexivity.
Qed.

(** The handler on a truthy userId that the client refuses as a filter. *)
Lemma list_posts_refused (c : Client) (query : object) (st : Store) :
  truthy (get query "userId") = true ->
  user_filter c (get query "userId") = None ->
  list_posts c query st = (fetch_failed, st).
Proof.
  intros Ht Hn. unfold list_posts, try_catch, bind, post_findMany_include.
  rewrite Ht, Hn. reflexivity.
Qed.

(** ** The order of the list *)

Lemma insert_row_perm (o : post_order) (p : Post) (l : list Post) :
  Permutation (insert_row o p l) (p :: l).
Proof.
  induction l as [|q r IH]; simpl; [apply Permutation_refl|].
  destruct (order_key o p <=? order_key o q); [apply Permutation_refl|].
  eapply perm_trans; [apply perm_skip, IH | apply perm_swap].
Qed.

Lemma ordered_rows_perm (o : post_order) (rows : list Post) :
  Permutation (ordered_rows o rows) rows.
Proof.
  unfold ordered_rows. induction rows as [|p l IH]; simpl; [constructor|].
  eapply perm_trans; [apply insert_row_perm | apply perm_skip, IH].
Qed.







Lemma listed_perm (st : Store) : Permutation (listed st) (posts st).
Proof. apply ordered_rows_perm. Qed.



(** ** The invariant of the store *)

Lemma jsstring_eqb_eq (a b : jsstring) : JsString.eqb a b = true <-> a = b.
Proof.
  unfold JsString.eqb. destruct (list_eq_dec N.eq_dec a b); split; intros; congruence.
Qed.

Lemma like_matches_key (postId : Z) (u : jsstring) (l : Like) :
  like_matches postId u l = true <-> like_key l = (postId, u).
Proof.
  unfold like_matches, like_selected, like_key.
  rewrite andb_true_iff, Z.eqb_eq, jsstring_eqb_eq.
  split; [intros [-> ->]; reflexivity | intros H; inversion H; auto].
Qed.

Lemma existsb_false_forall {A} (f : A -> bool) (l : list A) :
  existsb f l = false <-> forall x, In x l -> f x = false.
Proof.
  induction l as [|a l IH]; simpl.
  - split; [intros _ x [] | reflexivity].
  - rewrite orb_false_iff, IH. split.
    + intros [Ha Hl] x [<- | Hx]; auto.
    + intros H. split; [apply H; left; reflexivity | intros x Hx; apply H; right; exact Hx].
Qed.

Lemma filter_all {A} (f : A -> bool) (l : list A) :
  (forall x, In x l -> f x = true) -> filter f l = l.
Proof.
  induction l as [|a l IH]; simpl; intros H; [reflexivity|].
  rewrite (H a (or_introl eq_refl)). f_equal. apply IH. intros x Hx. apply H. right. exact Hx.
Qed.


Lemma filter_negb_none {A} (f : A -> bool) (l : list A) :
  existsb f l = false -> filter (fun x => negb (f x)) l = l.
Proof.
  intros H. apply filter_all. intros x Hx.
  rewrite (proj1 (existsb_false_forall f l) H x Hx). reflexivity.
Qed.

Lemma NoDup_map_filter {A B} (k : A -> B) (f : A -> bool) (l : list A) :
  NoDup (map k l) -> NoDup (map k (filter f l)).
Proof.
  induction l as [|a l IH]; simpl; intros H; [constructor|].
  inversion H as [|? ? Hn Hd]; subst.
  destruct (f a); simpl; [|apply IH, Hd].
  constructor; [|apply IH, Hd].
  intros Hin. apply Hn. apply in_map_iff in Hin. destruct Hin as [x [Hx Hi]].
  apply in_map_iff. exists x. split; [exact Hx|]. apply filter_In in Hi. tauto.
Qed.

Lemma Forall_filter {A} (P : A -> Prop) (f : A -> bool) (l : list A) :
  Forall P l -> Forall P (filter f l).
Proof.
  intros H. apply Forall_forall. intros x Hx. apply filter_In in Hx.
  apply (proj1 (Forall_forall P l) H). tauto.
Qed.

Lemma NoDup_map_snoc {A B} (k : A -> B) (l : list A) (a : A) :
  NoDup (map k l) -> ~ In (k a) (map k l) -> NoDup (map k (l ++ [a])).
Proof.
  intros Hd Hn. rewrite map_app. simpl.
  induction (map k l) as [|b bs IH]; simpl.
  - constructor; [intros [] | constructor].
  - inversion Hd as [|? ? Hb Hbs]; subst. constructor.
    + rewrite in_app_iff. intros [Hin | [Heq | []]]; [exact (Hb Hin)|].
      apply Hn. left. symmetry; exact Heq.
    + apply IH; [exact Hbs|]. intros Hin. apply Hn. right. exact Hin.
Qed.

Lemma existsb_remove_other (id k : Z) (ps : list Post) :
  k <> id ->
  existsb (post_has_id k) (remove_post id ps) = existsb (post_has_id k) ps.
Proof.
  intros Hk. unfold remove_post.
  induction ps as [|p ps IH]; simpl; [reflexivity|].
  destruct (post_has_id id p) eqn:E; simpl.
  - rewrite IH. unfold post_has_id in E |- *.
    apply andb_true_iff in E. destruct E as [_ E]. apply Z.eqb_eq in E.
    assert ((post_id p =? k) = false) as -> by (apply Z.eqb_neq; lia).
    rewrite andb_false_r. reflexivity.
  - rewrite IH. reflexivity.
Qed.

Lemma post_has_id_range (id : Z) (ps : list Post) :
  existsb (post_has_id id) ps = true -> int4 id = true.
Proof.
  intros H. apply existsb_exists in H. destruct H as [p [_ H]].
  unfold post_has_id in H. apply andb_true_iff in H. tauto.
Qed.

Lemma wf_empty_store : wf_store empty_store.
Proof. constructor; simpl; constructor. Qed.

Lemma wf_add_post (p : Post) (st : Store) :
  wf_store st -> post_id p = post_seq st -> trimmed_text (post_content p) ->
  wf_store (add_post p st).
Proof.
  intros [Hi Hs Hc Hk Hu Hp] Hid Hcontent. constructor; simpl; auto.
  - apply NoDup_map_snoc; [exact Hi|]. intros Hin.
    apply in_map_iff in Hin. destruct Hin as [q [Hq Hin]].
    pose proof (proj1 (Forall_forall _ _) Hs q Hin) as Hlt. simpl in Hlt. lia.
  - apply Forall_app. split.
    + eapply Forall_impl; [|exact Hs]. simpl. intros; lia.
    + constructor; [lia | constructor].
  - apply Forall_app. split; [exact Hc | constructor; [exact Hcontent | constructor]].
  - eapply Forall_impl; [|exact Hp]. simpl. intros l Hl.
    rewrite existsb_app, Hl. reflexivity.
Qed.

Lemma wf_add_like (postId : Z) (u : jsstring) (st : Store) :
  wf_store st -> u <> [] ->
  existsb (like_matches postId u) (likes st) = false ->
  existsb (post_has_id postId) (posts st) = true ->
  wf_store {| posts := posts st;
              likes := likes st ++ [mkLike (like_seq st) postId u];
              post_seq := post_seq st;
              like_seq := like_seq st + 1 |}.
Proof.
  intros [Hi Hs Hc Hk Hu Hp] Hne Hnew Hex. constructor; simpl; auto.
  - apply NoDup_map_snoc; [exact Hk|]. intros Hin.
    apply in_map_iff in Hin. destruct Hin as [l [Hl Hin]].
    apply (proj2 (like_matches_key postId u l)) in Hl.
    rewrite (proj1 (existsb_false_forall _ _) Hnew l Hin) in Hl. discriminate.
  - apply Forall_app. split; [exact Hu | constructor; [exact Hne | constructor]].
  - apply Forall_app. split; [exact Hp | constructor; [exact Hex | constructor]].
Qed.

Lemma wf_remove_likes (f : Like -> bool) (st : Store) :
  wf_store st ->
  wf_store {| posts := posts st;
              likes := filter f (likes st);
              post_seq := post_seq st;
              like_seq := like_seq st |}.
Proof.
  intros [Hi Hs Hc Hk Hu Hp]. constructor; simpl; auto.
  - apply NoDup_map_filter, Hk.
  - apply Forall_filter, Hu.
  - apply Forall_filter, Hp.
Qed.

Lemma wf_remove_post (id : Z) (ls : list Like) (st : Store) :
  wf_store st ->
  (ls = remove_likes_of id (likes st)
   \/ ls = likes st /\ existsb (like_of_post id) (likes st) = false) ->
  wf_store {| posts := remove_post id (posts st);
              likes := ls;
              post_seq := post_seq st;
              like_seq := like_seq st |}.
Proof.
  intros [Hi Hs Hc Hk Hu Hp] Hls.
  assert (Hls' : ls = remove_likes_of id (likes st)).
  { destruct Hls as [H | [-> H]]; [exact H|].
    unfold remove_likes_of. symmetry. apply filter_negb_none, H. }
  subst ls. constructor; simpl.
  - apply NoDup_map_filter, Hi.
  - apply Forall_filter, Hs.
  - apply Forall_filter, Hc.
  - apply NoDup_map_filter, Hk.
  - apply Forall_filter, Hu.
  - apply Forall_forall. intros l Hl. apply filter_In in Hl. destruct Hl as [Hin Hne].
    rewrite existsb_remove_other.
    + apply (proj1 (Forall_forall _ _) Hp l Hin).
    + unfold like_of_post in Hne. apply negb_true_iff, Z.eqb_neq in Hne. exact Hne.
Qed.

(** ** Liking and unliking *)

Lemma count_likes_snoc (postId : Z) (ls : list Like) (k : Z) (u : jsstring) :
  count_likes postId (ls ++ [mkLike k postId u]) = count_likes postId ls + 1.
Proof.
  unfold count_likes. rewrite filter_app, length_app. simpl.
  unfold like_of_post at 2. simpl. rewrite Z.eqb_refl. simpl. lia.
Qed.


(** A like by a user who has not liked the post yet. *)
Lemma like_post_new (id_param : jsstring) (body : object) (st : Store)
  (postId : Z) (u : jsstring) :
  parseInt id_param = Some postId ->
  get body "userId" = VStr u ->
  u <> [] ->
  existsb (post_has_id postId) (posts st) = true ->
  existsb (like_matches postId u) (likes st) = false ->
  like_post id_param body st
  = (respond 201 (LikeJson (count_likes postId (likes st) + 1) true),
     add_like postId u st).
Proof.
  intros Hp Hb Hu Hpost Hnew. run_handler. rewrite Hp, Hb.
  destruct u as [|c r]; [contradiction Hu; reflexivity|].
  simpl. rewrite (post_has_id_range _ _ Hpost), Hnew, Hpost. simpl.
  rewrite count_likes_snoc. reflexivity.
Qed.


Lemma like_matches_own (k postId : Z) (u : jsstring) :
  like_matches postId u (mkLike k postId u) = true.
Proof. apply like_matches_key. reflexivity. Qed.




(** X2: whatever the store, a like that is answered 201 is answered 400
    when it is repeated, and the repetition leaves the store as it was. *)
Theorem like_post_repeat (id_param : jsstring) (body : object) (st : Store) :
  status (fst (like_post id_param body st)) = 201 ->
  like_post id_param body (snd (like_post id_param body st))
  = (respond 400 (ErrorJson "すでにいいねしています"), snd (like_post id_param body st)).
Proof.
  run_handler.
  destruct (parseInt id_param) as [postId|] eqn:Hp; [|simpl; discriminate].
  destruct (truthy (get body "userId")) eqn:Ht; [|simpl; discriminate].
  simpl. destruct (text_arg (get body "userId")) as [u|] eqn:Hu; [|simpl; discriminate].
  destruct (int4 postId) eqn:Hr; [|simpl; discriminate].
  destruct (existsb (like_matches postId u) (likes st)) eqn:Hold; [simpl; discriminate|].
  destruct (existsb (post_has_id postId) (posts st)) eqn:Hpost; [|simpl; discriminate].
  simpl. intros _. rewrite existsb_app. simpl. rewrite like_matches_own.
  rewrite orb_true_r. reflexivity.
Qed.

Lemma like_post_repeat_witness :
  like_post (lit "1") [("userId"%string, VStr (lit "u1"))]
    (snd (like_post (lit "1") [("userId"%string, VStr (lit "u1"))] one_post_store))
  = (respond 400 (ErrorJson "すでにいいねしています"),
     snd (like_post (lit "1") [("userId"%string, VStr (lit "u1"))] one_post_store)).
Proof.
  apply (like_post_repeat (lit "1") [("userId"%string, VStr (lit "u1"))] one_post_store).
  reflexivity.
Defined.

(** Unliking removes the likes of the pair and answers with the count that
    is left. *)
Lemma unlike_post_valid (c : Client) (id_param : jsstring) (body : object)
  (st : Store) (postId : Z) (u : jsstring) :
  parseInt id_param = Some postId ->
  get body "userId" = VStr u ->
  u <> [] ->
  int4 postId = true ->
  unlike_post c id_param body st
  = (ok (LikeJson
           (count_likes postId (filter (fun l => negb (like_matches postId u l)) (likes st)))
           false),
     {| posts := posts st;
        likes := filter (fun l => negb (like_matches postId u l)) (likes st);
        post_seq := post_seq st;
        like_seq := like_seq st |}).
Proof.
  intros Hp Hb Hu Hr. run_handler. rewrite Hp, Hb.
  destruct u as [|ch r]; [contradiction Hu; reflexivity|].
  simpl. rewrite Hr. reflexivity.
Qed.




(** X3: unliking twice is unliking once, whatever the request and the
    store: the second request answers as the first did and leaves the store
    as the first left it. *)
Theorem unlike_post_idempotent (c : Client) (id_param : jsstring) (body : object)
  (st : Store) :
  unlike_post c id_param body (snd (unlike_post c id_param body st))
  = (fst (unlike_post c id_param body st), snd (unlike_post c id_param body st)).
Proof.
  run_handler.
  destruct (parseInt id_param) as [postId|]; [|reflexivity].
  destruct (truthy (get body "userId")); [|reflexivity].
  simpl. destruct (user_filter c (get body "userId")) as [f|]; [|reflexivity].
  destruct (int4 postId); [|reflexivity].
  simpl.
  assert (H : filter (fun l => negb (like_selected postId f l))
                (filter (fun l => negb (like_selected postId f l)) (likes st))
              = filter (fun l => negb (like_selected postId f l)) (likes st)).
  { apply filter_all. intros x Hx. apply filter_In in Hx. tauto. }
  rewrite H. reflexivity.
Qed.

(** ** The list endpoint *)

Lemma post_of_view_by (st : Store) (liked : Z -> bool) (p : Post) :
  post_of_view (view_by st liked p) = p.
Proof. destruct p; reflexivity. Qed.




(** Every outcome of the list handler: the store is untouched, and the
    answer is the 500 of the catch block or the views of the rows in the
    order asked of the storage. *)
Lemma get_posts_outcome (c : Client) (query : object) (st : Store)
  (r : Response) (st' : Store) :
  get_posts c query st (r, st') ->
  st' = st
  /\ (r = fetch_failed
      \/ exists liked, r = ok (ViewsJson (map (view_by st liked) (listed st)))).
Proof.
  intros H. inversion H as [Heq].
  destruct (list_posts_cases c query st) as [E | [liked E]]; rewrite E in Heq;
    injection Heq as Hr Hst; subst r st'; split; auto.
  right. exists liked. reflexivity.
Qed.

(** The outcome for a userId that is absent or a string. *)
Lemma get_posts_plain (c : Client) (query : object) (st : Store)
  (r : Response) (st' : Store) :
  plain_user (get query "userId") ->
  get_posts c query st (r, st') ->
  st' = st
  /\ r = ok (ViewsJson (map (view_of st (get query "userId")) (listed st))).
Proof.
  intros Hplain H. inversion H as [Heq].
  rewrite (list_posts_ok c query st (plain_user_cases _ Hplain)) in Heq.
  injection Heq as Hr Hst. subst r st'. split; reflexivity.
Qed.

Lemma get_posts_v0_outcome (st : Store) (r : Response) (st' : Store) :
  ServerV0.get_posts st (r, st') ->
  st' = st /\ r = respond 200 (PostsJson (listed st)).
Proof.
  intros H. inversion H as [Heq]. split; reflexivity.
Qed.




(** C5: in every answer of the list endpoint to a query whose userId is
    absent or a string, on a store that satisfies the invariant, each
    element is a post of the table; its likeCount is the number of likes
    that reference the post; its isLiked is true exactly when the query has
    a userId and the table holds a like of the post by that user; without a
    userId, isLiked is false. *)
Theorem get_posts_like_fields (c : Client) (query : object) (st : Store)
  (r : Response) (st' : Store) (vs : list PostView) (v : PostView) :
  wf_store st ->
  plain_user (get query "userId") ->
  get_posts c query st (r, st') ->
  body r = ViewsJson vs ->
  In v vs ->
  In (post_of_view v) (posts st)
  /\ likeCount v
     = Z.of_nat (List.length (filter (fun l => like_postId l =? view_id v) (likes st)))
  /\ (isLiked v = true <->
      get query "userId" <> VUndefined
      /\ exists l, In l (likes st)
                   /\ like_postId l = view_id v
                   /\ VStr (like_userId l) = get query "userId")
  /\ (get query "userId" = VUndefined -> isLiked v = false).
Proof.
  intros Hwf Hplain Hget Hbody Hin.
  destruct (get_posts_plain c query st r st' Hplain Hget) as [_ Hr].
  subst r. simpl in Hbody. injection Hbody as Hvs. subst vs.
  apply in_map_iff in Hin. destruct Hin as [p [Hv Hp]]. subst v.
  unfold view_of. rewrite post_of_view_by. simpl.
  split; [apply (Permutation_in _ (listed_perm st) Hp)|].
  split; [reflexivity|].
  unfold liked_by. split.
  - destruct (get query "userId") as [| |b|q|[|ch u]|l|o] eqn:E;
      try (split; [discriminate | intros [_ [l' [_ [_ Hl]]]]; discriminate]).
    + split; [discriminate|]. intros [_ [l [Hl [_ Hu]]]].
      injection Hu as Hu.
      exfalso. exact (proj1 (Forall_forall _ _) (wf_like_user st Hwf) l Hl Hu).
    + rewrite existsb_exists. split.
      * intros [l [Hl Hm]]. split; [discriminate|].
        apply like_matches_key in Hm. injection Hm as Hpid Huid.
        exists l. split; [exact Hl|]. split; [exact Hpid|]. rewrite Huid. reflexivity.
      * intros [_ [l [Hl [Hpid Hu]]]]. exists l. split; [exact Hl|].
        apply like_matches_key. unfold like_key. injection Hu as Hu.
        rewrite Hpid, Hu. reflexivity.
  - intros ->. reflexivity.
Qed.

(** Why the properties of the list ask for a plain userId: with a client
    that reads an object as a condition, here one that every user passes,
    a query whose userId is an object is answered with isLiked true. *)
Example get_posts_object_filter :
  get_posts
    (mkClient Cascade
       (fun v => match v with VObj _ => Some (fun _ => true) | _ => None end))
    [("userId"%string, VObj [("not"%string, VStr (lit "nobody"))])] liked_store
    (respond 200 (ViewsJson [mkPostView 1 (lit "hello") None None 1000 1000 1 true]),
     liked_store).
Proof.
  exact (get_posts_intro
           (mkClient Cascade
              (fun v => match v with VObj _ => Some (fun _ => true) | _ => None end))
           [("userId"%string, VObj [("not"%string, VStr (lit "nobody"))])] liked_store).
Qed.

Lemma wf_liked_store : wf_store liked_store.
Proof.
  constructor; simpl; repeat constructor; simpl; try tauto; try discriminate.
Qed.

Example get_posts_liked :
  get_posts (strict_client Cascade) [("userId"%string, VStr (lit "u1"))] liked_store
    (respond 200 (ViewsJson [mkPostView 1 (lit "hello") None None 1000 1000 1 true]),
     liked_store).
Proof.
  exact (get_posts_intro (strict_client Cascade)
           [("userId"%string, VStr (lit "u1"))] liked_store).
Qed.

Lemma get_posts_like_fields_witness :
  In (mkPost 1 (lit "hello") None None 1000 1000) (posts liked_store)
  /\ 1 = Z.of_nat (List.length (filter (fun l => like_postId l =? 1) (likes liked_store)))
  /\ (true = true <->
      get [("userId"%string, VStr (lit "u1"))] "userId" <> VUndefined
      /\ exists l, In l (likes liked_store)
                   /\ like_postId l = 1
                   /\ VStr (like_userId l) = get [("userId"%string, VStr (lit "u1"))] "userId")
  /\ (get [("userId"%string, VStr (lit "u1"))] "userId" = VUndefined -> true = false).
Proof.
  apply (get_posts_like_fields (strict_client Cascade)
           [("userId"%string, VStr (lit "u1"))] liked_store
           (respond 200 (ViewsJson [mkPostView 1 (lit "hello") None None 1000 1000 1 true]))
           liked_store
           [mkPostView 1 (lit "hello") None None 1000 1000 1 true]
           (mkPostView 1 (lit "hello") None None 1000 1000 1 true)).
  - exact wf_liked_store.
  - exact I.
  - exact get_posts_liked.
  - reflexivity.
  - left. reflexivity.
Defined.

(** ** Deleting a post *)

Lemma delete_post_invalid (c : Client) (id_param : jsstring) (st : Store) :
  parseInt id_param = None ->
  delete_post c id_param st = (respond 400 (ErrorJson "無効なIDです"), st).
Proof. intros Hp. run_handler. rewrite Hp. reflexivity. Qed.

Lemma delete_post_missing (c : Client) (id_param : jsstring) (st : Store) (id : Z) :
  parseInt id_param = Some id ->
  int4 id = true ->
  existsb (post_has_id id) (posts st) = false ->
  fst (post_delete c id st) = inl (PrismaKnownError "P2025")
  /\ delete_post c id_param st = (respond 404 (ErrorJson "投稿が見つかりません"), st).
Proof.
  intros Hp Hr Hex. run_handler. rewrite Hp, Hr, Hex. split; reflexivity.
Qed.

(** An integer beyond the range of the key column: the storage refuses it
    with an error that is no record-not-found signal. *)
Lemma delete_post_beyond_range (c : Client) (id_param : jsstring) (st : Store) (id : Z) :
  parseInt id_param = Some id ->
  int4 id = false ->
  delete_post c id_param st = (respond 500 (ErrorJson "投稿の削除に失敗しました"), st).
Proof.
  intros Hp Hr. run_handler. rewrite Hp, Hr. reflexivity.
Qed.

Lemma delete_post_done (c : Client) (id_param : jsstring) (st : Store) (id : Z) :
  parseInt id_param = Some id ->
  existsb (post_has_id id) (posts st) = true ->
  deletable c id st ->
  delete_post c id_param st
  = (respond 200 (MessageJson "投稿を削除しました"),
     {| posts := remove_post id (posts st);
        likes := remove_likes_of id (likes st);
        post_seq := post_seq st;
        like_seq := like_seq st |}).
Proof.
  intros Hp Hex Hd. run_handler.
  rewrite Hp, (post_has_id_range _ _ Hex), Hex. unfold deletable in Hd.
  destruct (on_post_delete c).
  - reflexivity.
  - destruct Hd as [Hd | Hd]; [discriminate|]. cbn [negb]. rewrite Hd.
    unfold remove_likes_of. rewrite (filter_negb_none _ _ Hd). reflexivity.
Qed.

(** Under [Restrict] a post that has likes stays: the storage signals the
    foreign key, and the catch block answers 500. *)
Lemma delete_post_restricted (c : Client) (id_param : jsstring) (st : Store) (id : Z) :
  on_post_delete c = Restrict ->
  parseInt id_param = Some id ->
  existsb (post_has_id id) (posts st) = true ->
  existsb (like_of_post id) (likes st) = true ->
  delete_post c id_param st
  = (respond 500 (ErrorJson "投稿の削除に失敗しました"), st).
Proof.
  intros Hc Hp Hex Hl. run_handler.
  rewrite Hp, (post_has_id_range _ _ Hex), Hex, Hc. cbn [negb]. rewrite Hl. reflexivity.
Qed.

Lemma remove_post_gone (id : Z) (ps : list Post) (p : Post) :
  int4 id = true ->
  In p (remove_post id ps) -> post_id p <> id.
Proof.
  unfold remove_post. intros Hr H. apply filter_In in H. destruct H as [_ H].
  unfold post_has_id in H. rewrite Hr in H. apply negb_true_iff, Z.eqb_neq in H. exact H.
Qed.

Lemma remove_post_absent (id : Z) (ps : list Post) :
  existsb (post_has_id id) (remove_post id ps) = false.
Proof.
  apply existsb_false_forall. intros p Hin. unfold remove_post in Hin.
  apply filter_In in Hin. destruct Hin as [_ H]. apply negb_true_iff in H. exact H.
Qed.

(** C7, as stated, fails for a numeric id beyond the range of the key
    column: it is the key of no post, yet the storage refuses it with an
    error that is no record-not-found signal, and the answer is 500, not
    404. *)
Lemma delete_beyond_key_range :
  parseInt (lit "2147483648") = Some 2147483648
  /\ existsb (fun p => post_id p =? 2147483648) (posts one_post_store) = false
  /\ delete_post (strict_client Cascade) (lit "2147483648") one_post_store
     = (respond 500 (ErrorJson "投稿の削除に失敗しました"), one_post_store).
Proof. repeat split; reflexivity. Qed.

(** C7, as amended: deleting by an id that does not parse is answered 400;
    by an id that parses to an integer of the key column's range and is the
    key of no post, 404, the answer to the storage's record-not-found
    signal; by an integer beyond that range, 500; by the key of a post that
    the storage lets go (the likes go with the post, or the post has none),
    200 with a confirmation message, after which the post is out of the
    table and no answer of the list endpoint (of either revision) contains
    it; by the key of a post that the storage holds back for its likes, 500.
    All but the 200 leave the store as it was. *)
Theorem delete_post_answers (c : Client) (id_param : jsstring) (st : Store) :
  (parseInt id_param = None ->
   exists msg, delete_post c id_param st = (respond 400 (ErrorJson msg), st))
  /\ (forall id,
        parseInt id_param = Some id ->
        int4 id = true ->
        existsb (post_has_id id) (posts st) = false ->
        fst (post_delete c id st) = inl (PrismaKnownError "P2025")
        /\ exists msg, delete_post c id_param st = (respond 404 (ErrorJson msg), st))
  /\ (forall id,
        parseInt id_param = Some id ->
        int4 id = false ->
        exists msg, delete_post c id_param st = (respond 500 (ErrorJson msg), st))
  /\ (forall id,
        parseInt id_param = Some id ->
        existsb (post_has_id id) (posts st) = true ->
        deletable c id st ->
        (exists msg, fst (delete_post c id_param st) = respond 200 (MessageJson msg))
        /\ posts (snd (delete_post c id_param st)) = remove_post id (posts st)
        /\ existsb (post_has_id id) (posts (snd (delete_post c id_param st))) = false
        /\ (forall query r st' vs v,
              get_posts c query (snd (delete_post c id_param st)) (r, st') ->
              body r = ViewsJson vs -> In v vs -> view_id v <> id)
        /\ (forall r st' ps p,
              ServerV0.get_posts (snd (delete_post c id_param st)) (r, st') ->
              body r = PostsJson ps -> In p ps -> post_id p <> id))
  /\ (forall id,
        parseInt id_param = Some id ->
        existsb (post_has_id id) (posts st) = true ->
        ~ deletable c id st ->
        exists msg, delete_post c id_param st = (respond 500 (ErrorJson msg), st)).
Proof.
  split; [|split; [|split; [|split]]].
  - intros Hp. eexists. apply delete_post_invalid, Hp.
  - intros id Hp Hr Hex.
    destruct (delete_post_missing c id_param st id Hp Hr Hex) as [Hsig Hresp].
    split; [exact Hsig|]. eexists. exact Hresp.
  - intros id Hp Hr. eexists. apply (delete_post_beyond_range c id_param st id Hp Hr).
  - intros id Hp Hex Hd.
    pose proof (post_has_id_range _ _ Hex) as Hr.
    rewrite (delete_post_done c id_param st id Hp Hex Hd). simpl.
    split; [eexists; reflexivity|]. split; [reflexivity|]. split; [|split].
    + apply remove_post_absent.
    + intros query r st' vs v Hget Hbody Hin.
      destruct (get_posts_outcome _ _ _ _ _ Hget) as [_ [Hr' | [liked Hr']]];
        subst r; simpl in Hbody; [discriminate|].
      injection Hbody as Hvs. subst vs.
      apply in_map_iff in Hin. destruct Hin as [p [Hv Hp']]. subst v. simpl.
      apply (remove_post_gone id (posts st) p Hr).
      apply (Permutation_in _ (listed_perm _) Hp').
    + intros r st' ps p Hget Hbody Hin.
      destruct (get_posts_v0_outcome _ _ _ Hget) as [_ Hr']. subst r.
      simpl in Hbody. injection Hbody as Hps. subst ps.
      apply (remove_post_gone id (posts st) p Hr).
      apply (Permutation_in _ (listed_perm _) Hin).
  - intros id Hp Hex Hnd. unfold deletable in Hnd. eexists.
    apply (delete_post_restricted c id_param st id); try assumption.
    + destruct (on_post_delete c); [exfalso; apply Hnd; left|]; reflexivity.
    + destruct (existsb (like_of_post id) (likes st)); [reflexivity|].
      exfalso. apply Hnd. right. reflexivity.
Qed.

Lemma delete_post_answers_witness :
  (exists msg,
     delete_post (strict_client Restrict) (lit "abc") one_post_store
     = (respond 400 (ErrorJson msg), one_post_store))
  /\ (exists msg,
        delete_post (strict_client Restrict) (lit "7") one_post_store
        = (respond 404 (ErrorJson msg), one_post_store))
  /\ (exists msg,
        delete_post (strict_client Restrict) (lit "2147483648") one_post_store
        = (respond 500 (ErrorJson msg), one_post_store))
  /\ (exists msg,
        fst (delete_post (strict_client Restrict) (lit "1") one_post_store)
        = respond 200 (MessageJson msg))
  /\ posts (snd (delete_post (strict_client Restrict) (lit "1") one_post_store)) = []
  /\ (exists msg,
        delete_post (strict_client Restrict) (lit "1") liked_store
        = (respond 500 (ErrorJson msg), liked_store)).
Proof.
  split; [|split; [|split]].
  - apply (proj1 (delete_post_answers (strict_client Restrict) (lit "abc") one_post_store)).
    reflexivity.
  - apply (proj1 (proj2 (delete_post_answers (strict_client Restrict) (lit "7")
                           one_post_store)) 7).
    + reflexivity.
    + reflexivity.
    + reflexivity.
  - apply (proj1 (proj2 (proj2 (delete_post_answers (strict_client Restrict)
                                  (lit "2147483648") one_post_store))) 2147483648).
    + reflexivity.
    + reflexivity.
  - destruct (proj1 (proj2 (proj2 (proj2 (delete_post_answers (strict_client Restrict)
                                             (lit "1") one_post_store)))) 1)
      as [H200 [Hposts _]].
    + reflexivity.
    + reflexivity.
    + right. reflexivity.
    + split; [exact H200|]. split; [exact Hposts|].
      apply (proj2 (proj2 (proj2 (proj2 (delete_post_answers (strict_client Restrict)
                                           (lit "1") liked_store)))) 1).
      * reflexivity.
      * reflexivity.
      * intros [H | H]; discriminate H.
Defined.

(** ** Ids with trailing text *)

Lemma digit_not_white_space (c : N) :
  is_decimal_digit c = true -> is_white_space c = false.
Proof.
  unfold is_decimal_digit, is_white_space, in_range. intros H.
  apply andb_true_iff in H. destruct H as [H1 H2].
  apply N.leb_le in H1. apply N.leb_le in H2.
  repeat (apply orb_false_iff; split);
    try (apply N.eqb_neq; lia);
    apply andb_false_iff;
    first [ left; apply N.leb_gt; lia | right; apply N.leb_gt; lia ].
Qed.

Lemma digit_value_decimal (c : N) :
  is_decimal_digit c = true -> digit_value 10 c = Some (Z.of_N c - 48).
Proof.
  unfold is_decimal_digit, digit_value. intros H. rewrite H.
  unfold in_range in H. apply andb_true_iff in H. destruct H as [H1 H2].
  apply N.leb_le in H1. apply N.leb_le in H2.
  assert ((Z.of_N c - 48 <? 10) = true) as -> by (apply Z.ltb_lt; lia).
  reflexivity.
Qed.

Lemma digit_value_other (c : N) :
  is_decimal_digit c = false -> digit_value 10 c = None.
Proof.
  unfold is_decimal_digit, digit_value. intros H. rewrite H.
  destruct (in_range 97 122 c) eqn:Ha.
  - unfold in_range in Ha. apply andb_true_iff in Ha. destruct Ha as [H1 _].
    apply N.leb_le in H1.
    assert ((Z.of_N c - 87 <? 10) = false) as -> by (apply Z.ltb_ge; lia).
    reflexivity.
  - destruct (in_range 65 90 c) eqn:Hb; [|reflexivity].
    unfold in_range in Hb. apply andb_true_iff in Hb. destruct Hb as [H1 _].
    apply N.leb_le in H1.
    assert ((Z.of_N c - 55 <? 10) = false) as -> by (apply Z.ltb_ge; lia).
    reflexivity.
Qed.

Lemma take_digits_decimal (ds : jsstring) :
  forallb is_decimal_digit ds = true ->
  take_digits 10 ds = map (fun d => Z.of_N d - 48) ds.
Proof.
  induction ds as [|d ds IH]; simpl; [reflexivity|].
  intros H. apply andb_true_iff in H. destruct H as [Hd Hds].
  rewrite (digit_value_decimal d Hd), (IH Hds). reflexivity.
Qed.

Lemma take_digits_decimal_prefix (ds : jsstring) (c : N) (rest : jsstring) :
  forallb is_decimal_digit ds = true ->
  is_decimal_digit c = false ->
  take_digits 10 (ds ++ c :: rest) = map (fun d => Z.of_N d - 48) ds.
Proof.
  induction ds as [|d ds IH]; simpl; intros H Hc.
  - rewrite (digit_value_other c Hc). reflexivity.
  - apply andb_true_iff in H. destruct H as [Hd Hds].
    rewrite (digit_value_decimal d Hd), (IH Hds Hc). reflexivity.
Qed.

(** A string that starts with a decimal digit has no white space to trim,
    no sign, and, unless it starts with [0x] or [0X], radix 10. *)
Lemma parseInt_leading_digit (d : N) (s : jsstring) :
  is_decimal_digit d = true ->
  strip_prefix (d :: s) = (10, d :: s) ->
  parseInt (d :: s)
  = match take_digits 10 (d :: s) with
    | [] => None
    | ds => Some (digits_value 10 ds)
    end.
Proof.
  intros Hd Hpre. unfold parseInt.
  cbn [trimStart]. rewrite (digit_not_white_space d Hd).
  assert (Hsign : strip_sign (d :: s) = (1, d :: s)).
  { unfold strip_sign. unfold is_decimal_digit, in_range in Hd.
    apply andb_true_iff in Hd. destruct Hd as [H1 H2].
    apply N.leb_le in H1. apply N.leb_le in H2.
    assert ((d =? 45)%N = false) as -> by (apply N.eqb_neq; lia).
    assert ((d =? 43)%N = false) as -> by (apply N.eqb_neq; lia).
    reflexivity. }
  rewrite Hsign, Hpre.
  destruct (take_digits 10 (d :: s)) as [|x xs]; [reflexivity|].
  f_equal. destruct (digits_value 10 (x :: xs)); reflexivity.
Qed.

Lemma strip_prefix_decimal (ds : jsstring) (c : N) (rest : jsstring) :
  ds <> [] ->
  forallb is_decimal_digit ds = true ->
  no_hex_prefix ds c ->
  strip_prefix (ds ++ c :: rest) = (10, ds ++ c :: rest)
  /\ strip_prefix ds = (10, ds).
Proof.
  intros Hne Hds Hhex. unfold strip_prefix.
  destruct ds as [|d0 [|d1 ds]]; simpl.
  - contradiction Hne. reflexivity.
  - split; [|reflexivity].
    destruct ((d0 =? 48)%N && ((c =? 120)%N || (c =? 88)%N)) eqn:E; [|reflexivity].
    exfalso. apply Hhex. apply andb_true_iff in E. destruct E as [E0 E1].
    apply N.eqb_eq in E0. apply orb_true_iff in E1. subst d0.
    split; [reflexivity|]. destruct E1 as [E1 | E1]; apply N.eqb_eq in E1; auto.
  - simpl in Hds. apply andb_true_iff in Hds. destruct Hds as [_ Hds].
    apply andb_true_iff in Hds. destruct Hds as [H1 _].
    unfold is_decimal_digit, in_range in H1.
    apply andb_true_iff in H1. destruct H1 as [Ha Hb].
    apply N.leb_le in Ha. apply N.leb_le in Hb.
    assert ((d1 =? 120)%N = false) as -> by (apply N.eqb_neq; lia).
    assert ((d1 =? 88)%N = false) as -> by (apply N.eqb_neq; lia).
    rewrite andb_false_r. split; reflexivity.
Qed.

(** [parseInt] of decimal digits followed by other text is the value of the
    digits, and so is [parseInt] of the digits alone. *)
Lemma parseInt_decimal_prefix (ds : jsstring) (c : N) (rest : jsstring) :
  ds <> [] ->
  forallb is_decimal_digit ds = true ->
  is_decimal_digit c = false ->
  no_hex_prefix ds c ->
  parseInt (ds ++ c :: rest) = Some (decimal_value ds)
  /\ parseInt ds = Some (decimal_value ds).
Proof.
  intros Hne Hds Hc Hhex.
  destruct (strip_prefix_decimal ds c rest Hne Hds Hhex) as [Hp1 Hp2].
  destruct ds as [|d ds]; [contradiction Hne; reflexivity|].
  assert (Hd : is_decimal_digit d = true).
  { simpl in Hds. apply andb_true_iff in Hds. tauto. }
  split.
  - change ((d :: ds) ++ c :: rest) with (d :: (ds ++ c :: rest)) in *.
    rewrite (parseInt_leading_digit d _ Hd Hp1).
    change (d :: (ds ++ c :: rest)) with ((d :: ds) ++ c :: rest).
    rewrite (take_digits_decimal_prefix (d :: ds) c rest Hds Hc). reflexivity.
  - rewrite (parseInt_leading_digit d _ Hd Hp2).
    rewrite (take_digits_decimal (d :: ds) Hds). reflexivity.
Qed.

(** The handlers read the path segment through [parseInt] only. *)
Lemma handlers_by_parsed (c : Client) (a b : jsstring) (body : object) (st : Store) :
  parseInt a = parseInt b ->
  delete_post c a st = delete_post c b st
  /\ like_post a body st = like_post b body st
  /\ unlike_post c a body st = unlike_post c b body st.
Proof.
  intros H. unfold delete_post, like_post, unlike_post. rewrite H. auto.
Qed.

Lemma delete_post_parsed_not_400 (c : Client) (a : jsstring) (st : Store) (id : Z) :
  parseInt a = Some id -> status (fst (delete_post c a st)) <> 400.
Proof.
  intros Hp. run_handler. rewrite Hp.
  destruct (int4 id); [|simpl; discriminate]. cbn [negb].
  destruct (existsb (post_has_id id) (posts st)); [|simpl; discriminate].
  destruct (on_post_delete c); [simpl; discriminate|].
  destruct (existsb (like_of_post id) (likes st)); simpl; discriminate.
Qed.

Lemma like_post_parsed_id_accepted (a : jsstring) (body : object) (st : Store) (id : Z) :
  parseInt a = Some id ->
  fst (like_post a body st) <> respond 400 (ErrorJson "無効な投稿IDです").
Proof.
  intros Hp. run_handler. rewrite Hp.
  destruct (truthy (get body "userId")); [|simpl; discriminate].
  simpl. destruct (text_arg (get body "userId")) as [u|]; [|simpl; discriminate].
  destruct (int4 id); [|simpl; discriminate]. cbn [negb].
  destruct (existsb (like_matches id u) (likes st)); [simpl; discriminate|].
  destruct (existsb (post_has_id id) (posts st)); simpl; discriminate.
Qed.

Lemma unlike_post_parsed_id_accepted (c : Client) (a : jsstring) (body : object)
  (st : Store) (id : Z) :
  parseInt a = Some id ->
  fst (unlike_post c a body st) <> respond 400 (ErrorJson "無効な投稿IDです").
Proof.
  intros Hp. run_handler. rewrite Hp.
  destruct (truthy (get body "userId")); [|simpl; discriminate].
  simpl. destruct (user_filter c (get body "userId")) as [f|]; [|simpl; discriminate].
  destruct (int4 id); simpl; discriminate.
Qed.

(** C10, as stated, fails on a segment that opens with the hexadecimal
    prefix: ["0xg"] starts with the decimal digit 0 followed by text that is
    not numeric, [parseInt] answers [NaN], and the delete, like and unlike
    handlers answer 400. Where hexadecimal digits follow the prefix, as in
    ["0x1F"], the value is not that of the decimal digits. *)
Lemma hex_prefix_id_rejected :
  lit "0xg" = lit "0" ++ lit "xg"
  /\ forallb is_decimal_digit (lit "0") = true
  /\ existsb is_decimal_digit (lit "xg") = false
  /\ delete_post (strict_client Cascade) (lit "0xg") one_post_store
     = (respond 400 (ErrorJson "無効なIDです"), one_post_store)
  /\ like_post (lit "0xg") [("userId"%string, VStr (lit "u1"))] one_post_store
     = (respond 400 (ErrorJson "無効な投稿IDです"), one_post_store)
  /\ unlike_post (strict_client Cascade) (lit "0xg")
       [("userId"%string, VStr (lit "u1"))] one_post_store
     = (respond 400 (ErrorJson "無効な投稿IDです"), one_post_store)
  /\ parseInt (lit "0x1F") = Some 31.
Proof. repeat split; reflexivity. Qed.

(** A like or unlike whose id passes can still be answered 400, for the
    want of a userId. *)
Example like_post_trailing_text_no_user :
  like_post (lit "12abc") [] one_post_store
  = (respond 400 (ErrorJson "ユーザーIDが必要です"), one_post_store).
Proof. reflexivity. Qed.

(** C10, as amended: for a path segment made of decimal digits followed by
    a code unit that is not a decimal digit and anything after it, other
    than a segment that opens with [0x] or [0X], [parseInt] is the value of
    the digits, and the delete, like and unlike handlers answer and change
    the store as they do for the digits alone: the delete handler does not
    answer 400, and the like and unlike handlers do not answer that the id
    is invalid (they may answer 400 for a missing userId or a repeated
    like). *)
Theorem id_with_trailing_text (c : Client) (ds : jsstring) (x : N)
  (rest : jsstring) (body : object) (st : Store) :
  ds <> [] ->
  forallb is_decimal_digit ds = true ->
  is_decimal_digit x = false ->
  no_hex_prefix ds x ->
  parseInt (ds ++ x :: rest) = Some (decimal_value ds)
  /\ delete_post c (ds ++ x :: rest) st = delete_post c ds st
  /\ like_post (ds ++ x :: rest) body st = like_post ds body st
  /\ unlike_post c (ds ++ x :: rest) body st = unlike_post c ds body st
  /\ status (fst (delete_post c (ds ++ x :: rest) st)) <> 400
  /\ fst (like_post (ds ++ x :: rest) body st)
     <> respond 400 (ErrorJson "無効な投稿IDです")
  /\ fst (unlike_post c (ds ++ x :: rest) body st)
     <> respond 400 (ErrorJson "無効な投稿IDです").
Proof.
  intros Hne Hds Hx Hhex.
  destruct (parseInt_decimal_prefix ds x rest Hne Hds Hx Hhex) as [H1 H2].
  assert (Heq : parseInt (ds ++ x :: rest) = parseInt ds) by (rewrite H1, H2; reflexivity).
  destruct (handlers_by_parsed c _ _ body st Heq) as [Hd [Hl Hu]].
  split; [exact H1|]. split; [exact Hd|]. split; [exact Hl|]. split; [exact Hu|].
  split; [|split].
  - apply (delete_post_parsed_not_400 c _ st _ H1).
  - apply (like_post_parsed_id_accepted _ body st _ H1).
  - apply (unlike_post_parsed_id_accepted c _ body st _ H1).
Qed.

Lemma id_with_trailing_text_witness :
  parseInt (lit "1abc") = Some 1
  /\ delete_post (strict_client Cascade) (lit "1abc") one_post_store
     = delete_post (strict_client Cascade) (lit "1") one_post_store
  /\ like_post (lit "1abc") [("userId"%string, VStr (lit "u1"))] one_post_store
     = like_post (lit "1") [("userId"%string, VStr (lit "u1"))] one_post_store
  /\ unlike_post (strict_client Cascade) (lit "1abc")
       [("userId"%string, VStr (lit "u1"))] one_post_store
     = unlike_post (strict_client Cascade) (lit "1")
         [("userId"%string, VStr (lit "u1"))] one_post_store
  /\ status (fst (delete_post (strict_client Cascade) (lit "1abc") one_post_store)) <> 400
  /\ fst (like_post (lit "1abc") [("userId"%string, VStr (lit "u1"))] one_post_store)
     <> respond 400 (ErrorJson "無効な投稿IDです")
  /\ fst (unlike_post (strict_client Cascade) (lit "1abc")
            [("userId"%string, VStr (lit "u1"))] one_post_store)
     <> respond 400 (ErrorJson "無効な投稿IDです").
Proof.
  apply (id_with_trailing_text (strict_client Cascade) (lit "1") 97%N (lit "bc")
           [("userId"%string, VStr (lit "u1"))] one_post_store).
  - discriminate.
  - reflexivity.
  - reflexivity.
  - intros [_ [H | H]]; discriminate H.
Defined.

Example delete_post_trailing_text :
  delete_post (strict_client Cascade) (lit "1abc") one_post_store
  = (respond 200 (MessageJson "投稿を削除しました"), mkStore [] [] 2 1).
Proof. reflexivity. Qed.

(** ** The listening port *)

(** C8, as stated, fails on [server.js]: with PORT set to 3000 in the
    environment, and with PORT set to 4000, the server listens on 8888. The
    revision without likes listens on the port the environment names. *)
Lemma listen_port_ignores_environment :
  listen_port [("PORT"%string, lit "3000")] = VNum (inject_Z 8888)
  /\ listen_port [("PORT"%string, lit "4000")] = VNum (inject_Z 8888)
  /\ ServerV0.listen_port [("PORT"%string, lit "3000")] = VStr (lit "3000").
Proof. repeat split; reflexivity. Qed.

(** C8, as amended: [server.js] listens on the constant port 8888, whatever
    the environment holds. The revision without likes listens on the value
    of PORT in the environment when it is set and not empty, and on 8888
    when it is unset or empty. *)
Theorem listen_port_by_revision (env : environment) :
  listen_port env = VNum (inject_Z 8888)
  /\ (getenv env "PORT" = VUndefined ->
      ServerV0.listen_port env = VNum (inject_Z 8888))
  /\ (getenv env "PORT" = VStr [] ->
      ServerV0.listen_port env = VNum (inject_Z 8888))
  /\ (forall s, getenv env "PORT" = VStr s -> s <> [] ->
      ServerV0.listen_port env = VStr s).
Proof.
  split; [reflexivity|].
  unfold ServerV0.listen_port, ServerV0.PORT, or_else.
  split; [|split].
  - intros ->. reflexivity.
  - intros ->. reflexivity.
  - intros s -> Hs. destruct s as [|c r]; [contradiction Hs; reflexivity | reflexivity].
Qed.

Lemma listen_port_by_revision_witness :
  listen_port [] = VNum (inject_Z 8888)
  /\ ServerV0.listen_port [] = VNum (inject_Z 8888)
  /\ ServerV0.listen_port [("PORT"%string, lit "3000")] = VStr (lit "3000").
Proof.
  split; [|split].
  - apply (proj1 (listen_port_by_revision [])).
  - apply (proj1 (proj2 (listen_port_by_revision []))). reflexivity.
  - apply (proj2 (proj2 (proj2 (listen_port_by_revision [("PORT"%string, lit "3000")])))).
    + reflexivity.
    + discriminate.
Defined.

(** ** Every handler keeps the invariant *)

(** Every outcome of a create-post request. *)
Lemma create_post_cases (now : Z) (body : object) (st : Store) :
  (exists p,
     create_post now body st = (respond 201 (PostJson p), add_post p st)
     /\ post_id p = post_seq st
     /\ int4 (post_seq st) = true
     /\ trimmed_text (post_content p)
     /\ post_createdAt p = now
     /\ post_updatedAt p = now)
  \/ create_post now body st = (respond 400 (ErrorJson "投稿内容を入力してください"), st)
  \/ create_post now body st = (respond 500 (ErrorJson "投稿の作成に失敗しました"), st).
Proof.
  destruct (get body "content") as [| |b|q|s|l|o] eqn:Hc;
    try (run_handler; rewrite Hc; simpl; tauto).
  - run_handler. rewrite Hc. destruct b; simpl; tauto.
  - run_handler. rewrite Hc. simpl. destruct (Qeq_bool q 0); simpl; tauto.
  - destruct (trim s) as [|ch r] eqn:Et.
    + right. left. run_handler. rewrite Hc.
      destruct s as [|ch r]; [reflexivity|]. simpl. rewrite Et. reflexivity.
    + assert (Hne : trim s <> []) by (rewrite Et; discriminate).
      assert (Htrim : trimmed_text (trim s)) by (split; [exact Hne | apply trim_idempotent]).
      rewrite (create_post_calls_storage now body st s Hc Hne). rewrite Et in *.
      unfold try_catch, bind, ret, post_create. cbn [text_arg].
      destruct (nullable_text_arg (or_else (get body "imageUrl") VNull)) as [i|];
        [|right; right; reflexivity].
      destruct (nullable_text_arg (or_else (get body "userId") VNull)) as [u|];
        [|right; right; reflexivity].
      unfold text_column.
      destruct (has_nul (ch :: r)); [right; right; reflexivity|].
      destruct (nullable_text_column i) as [i'|]; [|right; right; reflexivity].
      destruct (nullable_text_column u) as [u'|]; [|right; right; reflexivity].
      destruct (int4 (post_seq st)) eqn:Hk; [|right; right; reflexivity].
      left. eexists. split; [reflexivity|]. cbn [post_id post_content post_createdAt post_updatedAt].
      repeat split; try reflexivity; apply (trimmed_text_column _ Htrim).
Qed.

(** What an answer 201 to a create-post request tells. *)
Lemma create_post_201 (now : Z) (body : object) (st : Store) (p : Post) :
  fst (create_post now body st) = respond 201 (PostJson p) ->
  snd (create_post now body st) = add_post p st
  /\ post_id p = post_seq st
  /\ int4 (post_seq st) = true
  /\ trimmed_text (post_content p)
  /\ post_createdAt p = now
  /\ post_updatedAt p = now.
Proof.
  intros H. destruct (create_post_cases now body st) as [[q [E Hq]] | [E | E]];
    rewrite E in *; simpl in H; try discriminate H.
  injection H as H. subst q. split; [reflexivity | exact Hq].
Qed.

Lemma create_post_store (now : Z) (body : object) (st : Store) :
  snd (create_post now body st) = st
  \/ exists p, post_id p = post_seq st
               /\ trimmed_text (post_content p)
               /\ snd (create_post now body st) = add_post p st.
Proof.
  destruct (create_post_cases now body st) as [[p [E [Hid [_ [Ht _]]]]] | [E | E]];
    rewrite E; simpl; [right | left; reflexivity | left; reflexivity].
  exists p. auto.
Qed.

Lemma create_post_wf (now : Z) (body : object) (st : Store) :
  wf_store st -> wf_store (snd (create_post now body st)).
Proof.
  intros Hwf. destruct (create_post_store now body st) as [-> | [p [Hid [Hc ->]]]].
  - exact Hwf.
  - apply wf_add_post; assumption.
Qed.

Lemma delete_post_wf (c : Client) (id_param : jsstring) (st : Store) :
  wf_store st -> wf_store (snd (delete_post c id_param st)).
Proof.
  intros Hwf. run_handler.
  destruct (parseInt id_param) as [id|]; [|exact Hwf].
  destruct (int4 id); [|exact Hwf]. cbn [negb].
  destruct (existsb (post_has_id id) (posts st)); [|exact Hwf].
  destruct (on_post_delete c); simpl.
  - apply wf_remove_post; [exact Hwf | left; reflexivity].
  - destruct (existsb (like_of_post id) (likes st)) eqn:E; simpl; [exact Hwf|].
    apply wf_remove_post; [exact Hwf | right; split; [reflexivity | exact E]].
Qed.

Lemma like_post_wf (id_param : jsstring) (body : object) (st : Store) :
  wf_store st -> wf_store (snd (like_post id_param body st)).
Proof.
  intros Hwf. run_handler.
  destruct (parseInt id_param) as [postId|]; [|exact Hwf].
  destruct (truthy (get body "userId")) eqn:Ht; [|exact Hwf].
  simpl. destruct (get body "userId") as [| |b|q|u|l|o]; simpl; try exact Hwf.
  destruct (int4 postId); [|exact Hwf]. cbn [negb].
  destruct (existsb (like_matches postId u) (likes st)) eqn:Hold; [exact Hwf|].
  destruct (existsb (post_has_id postId) (posts st)) eqn:Hpost; simpl; [|exact Hwf].
  apply wf_add_like; try assumption.
  intros ->. discriminate Ht.
Qed.

Lemma unlike_post_wf (c : Client) (id_param : jsstring) (body : object) (st : Store) :
  wf_store st -> wf_store (snd (unlike_post c id_param body st)).
Proof.
  intros Hwf. run_handler.
  destruct (parseInt id_param) as [postId|]; [|exact Hwf].
  destruct (truthy (get body "userId")); [|exact Hwf].
  simpl. destruct (user_filter c (get body "userId")) as [f|]; simpl; [|exact Hwf].
  destruct (int4 postId); simpl; [|exact Hwf].
  apply wf_remove_likes, Hwf.
Qed.

(** ** The router *)

Lemma serve_wf (c : Client) (st : Store) (req : request) (out : Response * Store) :
  wf_store st -> serve c st req out -> wf_store (snd out).
Proof.
  intros Hwf Hs. destruct Hs as [|query out Hget|now body|id_param|id_param body|id_param body].
  - exact Hwf.
  - destruct out as [r st']. destruct (get_posts_outcome c query st r st' Hget) as [-> _].
    exact Hwf.
  - apply create_post_wf, Hwf.
  - apply delete_post_wf, Hwf.
  - apply like_post_wf, Hwf.
  - apply unlike_post_wf, Hwf.
Qed.

(** X1: every store the server reaches from the empty one, whatever the
    requests, satisfies the invariant: post keys are distinct and below the
    sequence, the content of every post is trimmed and not empty, the likes
    are a set of (postId, userId) pairs, no like has an empty user, and
    every like references a post of the table. *)
Theorem reachable_wf (c : Client) (st : Store) :
  reachable c st -> wf_store st.
Proof.
  induction 1 as [|st req out _ IH Hs].
  - exact wf_empty_store.
  - exact (serve_wf c st req out IH Hs).
Qed.

Lemma reachable_wf_witness : wf_store one_post_store.
Proof.
  apply (reachable_wf (strict_client Cascade) one_post_store).
  exact (reach_serve (strict_client Cascade) empty_store
           (PostPosts 1000 [("content"%string, VStr (lit "hello"))])
           (create_post 1000 [("content"%string, VStr (lit "hello"))] empty_store)
           (reach_empty (strict_client Cascade))
           (serve_post_posts (strict_client Cascade) empty_store 1000
              [("content"%string, VStr (lit "hello"))])).
Defined.

(** The example of the spec, request by request. *)
Example spec_example_run :
  serve (strict_client Cascade) empty_store
    (PostPosts 1000 [("content"%string, VStr (lit "hello"))])
    (respond 201 (PostJson (mkPost 1 (lit "hello") None None 1000 1000)), one_post_store)
  /\ serve (strict_client Cascade) one_post_store
       (GetPosts [("userId"%string, VStr (lit "u1"))])
       (respond 200 (ViewsJson [mkPostView 1 (lit "hello") None None 1000 1000 0 false]),
        one_post_store)
  /\ serve (strict_client Cascade) one_post_store
       (PostLike (lit "1") [("userId"%string, VStr (lit "u1"))])
       (respond 201 (LikeJson 1 true), liked_store)
  /\ serve (strict_client Cascade) liked_store
       (GetPosts [("userId"%string, VStr (lit "u1"))])
       (respond 200 (ViewsJson [mkPostView 1 (lit "hello") None None 1000 1000 1 true]),
        liked_store).
Proof.
  split; [|split; [|split]].
  - apply (serve_post_posts (strict_client Cascade) empty_store 1000
             [("content"%string, VStr (lit "hello"))]).
  - apply serve_get_posts.
    exact (get_posts_intro (strict_client Cascade)
             [("userId"%string, VStr (lit "u1"))] one_post_store).
  - apply (serve_post_like (strict_client Cascade) one_post_store (lit "1")
             [("userId"%string, VStr (lit "u1"))]).
  - apply serve_get_posts. exact get_posts_liked.
Qed.


(** ** More on creating a post *)

(** X4: a create-post request is answered 201, 400 or 500, whatever it
    holds. With 201 the answer carries a record whose id is the next value
    of the sequence and whose timestamps are the clock's, and that record is
    the one row appended to the table; with 400 or 500 the store is left as
    it was. *)
Theorem create_post_outcomes (now : Z) (body : object) (st : Store) :
  (exists p,
     create_post now body st = (respond 201 (PostJson p), add_post p st)
     /\ post_id p = post_seq st
     /\ post_createdAt p = now
     /\ post_updatedAt p = now)
  \/ (exists msg, create_post now body st = (respond 400 (ErrorJson msg), st))
  \/ (exists msg, create_post now body st = (respond 500 (ErrorJson msg), st)).
Proof.
  destruct (create_post_cases now body st)
    as [[p [E [Hid [_ [_ [Hc Hu]]]]]] | [E | E]]; rewrite E.
  - left. exists p. auto.
  - right. left. eexists. reflexivity.
  - right. right. eexists. reflexivity.
Qed.

(** X5: a create-post request is read through its content, imageUrl and
    userId only: two bodies that agree on these three are answered alike and
    leave the same store, so that an id or a timestamp sent by the client
    has no effect. *)
Theorem create_post_reads_three_fields (now : Z) (b1 b2 : object) (st : Store) :
  get b1 "content" = get b2 "content" ->
  get b1 "imageUrl" = get b2 "imageUrl" ->
  get b1 "userId" = get b2 "userId" ->
  create_post now b1 st = create_post now b2 st.
Proof.
  intros Hc Hi Hu. unfold create_post. rewrite Hc, Hi, Hu. reflexivity.
Qed.

Lemma create_post_reads_three_fields_witness :
  create_post 1000
    [("content"%string, VStr (lit "hello"));
     ("id"%string, VNum (inject_Z 99));
     ("createdAt"%string, VStr (lit "1999-01-01"))] empty_store
  = create_post 1000 [("content"%string, VStr (lit "hello"))] empty_store.
Proof.
  apply (create_post_reads_three_fields 1000
           [("content"%string, VStr (lit "hello"));
            ("id"%string, VNum (inject_Z 99));
            ("createdAt"%string, VStr (lit "1999-01-01"))]
           [("content"%string, VStr (lit "hello"))] empty_store).
  - reflexivity.
  - reflexivity.
  - reflexivity.
Defined.

(** On a store that satisfies the invariant no like references the next
    key of the posts. *)
Lemma no_like_of_next_post (st : Store) (l : Like) :
  wf_store st -> In l (likes st) -> like_postId l <> post_seq st.
Proof.
  intros Hwf Hl Heq.
  pose proof (proj1 (Forall_forall _ _) (wf_like_post st Hwf) l Hl) as Hex.
  apply existsb_exists in Hex. destruct Hex as [p [Hp Hid]].
  unfold post_has_id in Hid. apply andb_true_iff in Hid. destruct Hid as [_ Hid].
  apply Z.eqb_eq in Hid.
  pose proof (proj1 (Forall_forall _ _) (wf_post_seq st Hwf) p Hp) as Hlt.
  simpl in Hlt. lia.
Qed.





(** ** More on liking and unliking *)

(** X7: the like and unlike handlers check the id first and the userId
    second, and touch nothing when either fails: an id that [parseInt] does
    not read is answered 400 (invalid id) whatever the body holds, and an id
    that it reads with a userId that is missing or falsy is answered 400
    (userId required); the store is left as it was. *)
Theorem like_unlike_validation (c : Client) (id_param : jsstring) (body : object)
  (st : Store) :
  (parseInt id_param = None ->
   like_post id_param body st = (respond 400 (ErrorJson "無効な投稿IDです"), st)
   /\ unlike_post c id_param body st = (respond 400 (ErrorJson "無効な投稿IDです"), st))
  /\ (parseInt id_param <> None ->
      truthy (get body "userId") = false ->
      like_post id_param body st = (respond 400 (ErrorJson "ユーザーIDが必要です"), st)
      /\ unlike_post c id_param body st
         = (respond 400 (ErrorJson "ユーザーIDが必要です"), st)).
Proof.
  split.
  - intros Hp. run_handler. rewrite Hp. split; reflexivity.
  - intros Hp Hu. run_handler.
    destruct (parseInt id_param) as [postId|]; [|contradiction Hp; reflexivity].
    rewrite Hu. split; reflexivity.
Qed.

Lemma like_unlike_validation_witness :
  (like_post (lit "abc") [] one_post_store
   = (respond 400 (ErrorJson "無効な投稿IDです"), one_post_store)
   /\ unlike_post (strict_client Cascade) (lit "abc") [] one_post_store
      = (respond 400 (ErrorJson "無効な投稿IDです"), one_post_store))
  /\ (like_post (lit "1") [("userId"%string, VStr [])] one_post_store
      = (respond 400 (ErrorJson "ユーザーIDが必要です"), one_post_store)
      /\ unlike_post (strict_client Cascade) (lit "1") [("userId"%string, VStr [])]
           one_post_store
         = (respond 400 (ErrorJson "ユーザーIDが必要です"), one_post_store)).
Proof.
  split.
  - apply (proj1 (like_unlike_validation (strict_client Cascade) (lit "abc") []
                    one_post_store)).
    reflexivity.
  - apply (proj2 (like_unlike_validation (strict_client Cascade) (lit "1")
                    [("userId"%string, VStr [])] one_post_store)).
    + discriminate.
    + reflexivity.
Defined.





Lemma in_map_key (l : Like) (ls : list Like) : In l ls -> In (like_key l) (map like_key ls).
Proof. intros H. apply in_map. exact H. Qed.

(** With distinct keys, removing the like of a pair that is there lowers
    the number of the post's likes by one. *)
Lemma likes_of_post_remove_one (postId : Z) (u : jsstring) (ls : list Like) :
  NoDup (map like_key ls) ->
  existsb (like_matches postId u) ls = true ->
  S (List.length (filter (like_of_post postId)
                    (filter (fun l => negb (like_matches postId u l)) ls)))
  = List.length (filter (like_of_post postId) ls).
Proof.
  induction ls as [|l ls IH]; cbn [existsb filter map]; [discriminate|].
  intros Hd Hex. inversion Hd as [|? ? Hn Hd']; subst.
  destruct (like_matches postId u l) eqn:Hm; cbn [negb].
  - assert (Hrest : existsb (like_matches postId u) ls = false).
    { apply existsb_false_forall. intros x Hx.
      destruct (like_matches postId u x) eqn:Hmx; [|reflexivity].
      exfalso. apply Hn. apply like_matches_key in Hm. apply like_matches_key in Hmx.
      rewrite Hm, <- Hmx. apply in_map_key, Hx. }
    rewrite (filter_negb_none _ _ Hrest).
    apply like_matches_key in Hm. unfold like_key in Hm. injection Hm as Hpid _.
    unfold like_of_post at 2. rewrite Hpid, Z.eqb_refl. reflexivity.
  - cbn [orb] in Hex. specialize (IH Hd' Hex). cbn [filter].
    destruct (like_of_post postId l); cbn [List.length]; rewrite IH; reflexivity.
Qed.

Lemma count_likes_remove_one (postId : Z) (u : jsstring) (ls : list Like) :
  NoDup (map like_key ls) ->
  existsb (like_matches postId u) ls = true ->
  count_likes postId (filter (fun l => negb (like_matches postId u l)) ls)
  = count_likes postId ls - 1.
Proof.
  intros Hd Hex. unfold count_likes.
  rewrite <- (likes_of_post_remove_one postId u ls Hd Hex).
  rewrite Nat2Z.inj_succ. lia.
Qed.

(** X10: unliking a like that is there takes it away. On a store that
    satisfies the invariant, for an id that parses and a userId that is a
    non-empty string whose like of the post is in the table, the unlike is
    answered 200 with isLiked false and the count lowered by one; afterwards
    the table holds no like of the pair, and every other like is still
    there. *)
Theorem unlike_present (c : Client) (id_param : jsstring) (body : object)
  (st : Store) (postId : Z) (u : jsstring) :
  wf_store st ->
  parseInt id_param = Some postId ->
  get body "userId" = VStr u ->
  u <> [] ->
  existsb (like_matches postId u) (likes st) = true ->
  fst (unlike_post c id_param body st)
  = respond 200 (LikeJson (count_likes postId (likes st) - 1) false)
  /\ existsb (like_matches postId u) (likes (snd (unlike_post c id_param body st))) = false
  /\ (forall l, In l (likes st) -> like_key l <> (postId, u) ->
                In l (likes (snd (unlike_post c id_param body st)))).
Proof.
  intros Hwf Hp Hb Hu Hex.
  assert (Hr : int4 postId = true).
  { apply existsb_exists in Hex. destruct Hex as [l [Hl Hm]].
    apply like_matches_key in Hm. injection Hm as Hpid _. subst postId.
    exact (post_has_id_range _ _
             (proj1 (Forall_forall _ _) (wf_like_post st Hwf) l Hl)). }
  rewrite (unlike_post_valid c id_param body st postId u Hp Hb Hu Hr). simpl.
  split; [|split].
  - rewrite (count_likes_remove_one postId u (likes st) (wf_like_keys st Hwf) Hex).
    reflexivity.
  - apply existsb_false_forall. intros l Hl. apply filter_In in Hl.
    destruct Hl as [_ Hl]. apply negb_true_iff in Hl. exact Hl.
  - intros l Hl Hk. apply filter_In. split; [exact Hl|].
    apply negb_true_iff. destruct (like_matches postId u l) eqn:Hm; [|reflexivity].
    exfalso. apply Hk. apply like_matches_key. exact Hm.
Qed.

Lemma unlike_present_witness :
  fst (unlike_post (strict_client Cascade) (lit "1")
         [("userId"%string, VStr (lit "u1"))] liked_store)
  = respond 200 (LikeJson 0 false)
  /\ existsb (like_matches 1 (lit "u1"))
       (likes (snd (unlike_post (strict_client Cascade) (lit "1")
                      [("userId"%string, VStr (lit "u1"))] liked_store))) = false
  /\ (forall l, In l (likes liked_store) -> like_key l <> (1, lit "u1") ->
                In l (likes (snd (unlike_post (strict_client Cascade) (lit "1")
                                    [("userId"%string, VStr (lit "u1"))] liked_store)))).
Proof.
  apply (unlike_present (strict_client Cascade) (lit "1")
           [("userId"%string, VStr (lit "u1"))] liked_store 1 (lit "u1")).
  - exact wf_liked_store.
  - reflexivity.
  - reflexivity.
  - discriminate.
  - reflexivity.
Defined.

Lemma count_likes_snoc_other (k postId : Z) (ls : list Like) (j : Z) (u : jsstring) :
  k <> postId -> count_likes k (ls ++ [mkLike j postId u]) = count_likes k ls.
Proof.
  intros Hk. unfold count_likes. rewrite filter_app. simpl.
  unfold like_of_post at 2. simpl.
  assert ((postId =? k) = false) as -> by (apply Z.eqb_neq; lia).
  rewrite app_nil_r. reflexivity.
Qed.

(** X11: a like shows in the list. After a user liked a post of the table
    that the user had not liked, in every answer of the list endpoint to a
    query with that userId the post has isLiked true and a likeCount one
    higher than before, and every other post has the likeCount and isLiked
    it had before. *)
Theorem liked_post_is_listed (c : Client) (id_param : jsstring) (like_body query : object)
  (st : Store) (postId : Z) (u : jsstring) (r : Response) (st' : Store)
  (vs : list PostView) (v : PostView) :
  parseInt id_param = Some postId ->
  get like_body "userId" = VStr u ->
  u <> [] ->
  existsb (post_has_id postId) (posts st) = true ->
  existsb (like_matches postId u) (likes st) = false ->
  get query "userId" = VStr u ->
  get_posts c query (snd (like_post id_param like_body st)) (r, st') ->
  body r = ViewsJson vs ->
  In v vs ->
  (view_id v = postId ->
   likeCount v = count_likes postId (likes st) + 1 /\ isLiked v = true)
  /\ (view_id v <> postId ->
      likeCount v = count_likes (view_id v) (likes st)
      /\ isLiked v = liked_by st (VStr u) (view_id v)).
Proof.
  intros Hp Hb Hu Hpost Hnew Hq Hget Hbody Hin.
  rewrite (like_post_new id_param like_body st postId u Hp Hb Hu Hpost Hnew) in Hget.
  simpl in Hget.
  assert (Hplain : plain_user (get query "userId")) by (rewrite Hq; exact I).
  destruct (get_posts_plain c query _ r st' Hplain Hget) as [_ Hr].
  subst r. simpl in Hbody. injection Hbody as Hvs. subst vs.
  apply in_map_iff in Hin. destruct Hin as [p [Hv _]]. subst v.
  rewrite Hq. unfold view_of, view_by, liked_by. simpl.
  destruct u as [|ch t]; [contradiction Hu; reflexivity|].
  rewrite existsb_app. simpl. split.
  - intros ->. rewrite count_likes_snoc, like_matches_own, orb_true_r. auto.
  - intros Hne. rewrite (count_likes_snoc_other _ _ _ _ _ Hne).
    split; [reflexivity|].
    unfold like_matches at 2. unfold like_selected. simpl.
    assert ((postId =? post_id p) = false) as -> by (apply Z.eqb_neq; lia).
    simpl. rewrite orb_false_r. reflexivity.
Qed.

Lemma liked_post_is_listed_witness :
  (1 = 1 -> 1 = count_likes 1 (likes one_post_store) + 1 /\ true = true)
  /\ (1 <> 1 ->
      1 = count_likes 1 (likes one_post_store)
      /\ true = liked_by one_post_store (VStr (lit "u1")) 1).
Proof.
  apply (liked_post_is_listed (strict_client Cascade) (lit "1")
           [("userId"%string, VStr (lit "u1"))] [("userId"%string, VStr (lit "u1"))]
           one_post_store 1 (lit "u1")
           (respond 200 (ViewsJson [mkPostView 1 (lit "hello") None None 1000 1000 1 true]))
           liked_store
           [mkPostView 1 (lit "hello") None None 1000 1000 1 true]
           (mkPostView 1 (lit "hello") None None 1000 1000 1 true)).
  - reflexivity.
  - reflexivity.
  - discriminate.
  - reflexivity.
  - reflexivity.
  - reflexivity.
  - exact get_posts_liked.
  - reflexivity.
  - left. reflexivity.
Defined.




(** Beyond the range of the key column the unlike is answered 500. *)
Example unlike_post_beyond_range :
  unlike_post (strict_client Cascade) (lit "2147483648")
    [("userId"%string, VStr (lit "u1"))] liked_store
  = (respond 500 (ErrorJson "いいねの削除に失敗しました"), liked_store).
Proof. reflexivity. Qed.

(** ** More on deleting a post *)

(** X13: deleting a post twice: when the first request deletes the post,
    the second request with the same id is answered 404 and leaves the
    store as the first left it. *)
Theorem delete_twice (c : Client) (id_param : jsstring) (st : Store) (id : Z) :
  parseInt id_param = Some id ->
  existsb (post_has_id id) (posts st) = true ->
  deletable c id st ->
  status (fst (delete_post c id_param st)) = 200
  /\ delete_post c id_param (snd (delete_post c id_param st))
     = (respond 404 (ErrorJson "投稿が見つかりません"), snd (delete_post c id_param st)).
Proof.
  intros Hp Hex Hd.
  rewrite (delete_post_done c id_param st id Hp Hex Hd). simpl.
  split; [reflexivity|].
  apply (delete_post_missing c id_param _ id Hp (post_has_id_range _ _ Hex)). simpl.
  apply remove_post_absent.
Qed.

Lemma delete_twice_witness :
  status (fst (delete_post (strict_client Restrict) (lit "1") one_post_store)) = 200
  /\ delete_post (strict_client Restrict) (lit "1")
       (snd (delete_post (strict_client Restrict) (lit "1") one_post_store))
     = (respond 404 (ErrorJson "投稿が見つかりません"),
        snd (delete_post (strict_client Restrict) (lit "1") one_post_store)).
Proof.
  apply (delete_twice (strict_client Restrict) (lit "1") one_post_store 1).
  - reflexivity.
  - reflexivity.
  - right. reflexivity.
Defined.

(** What a delete request does to the store: nothing, or it removes the
    post of one key and the likes that reference it. *)
Lemma delete_post_store (c : Client) (id_param : jsstring) (st : Store) :
  snd (delete_post c id_param st) = st
  \/ exists id, parseInt id_param = Some id
                /\ snd (delete_post c id_param st)
                   = {| posts := remove_post id (posts st);
                        likes := remove_likes_of id (likes st);
                        post_seq := post_seq st;
                        like_seq := like_seq st |}.
Proof.
  run_handler. destruct (parseInt id_param) as [id|]; [|left; reflexivity].
  destruct (int4 id); [|left; reflexivity]. cbn [negb].
  destruct (existsb (post_has_id id) (posts st)); [|left; reflexivity].
  destruct (on_post_delete c); simpl.
  - right. exists id. split; reflexivity.
  - destruct (existsb (like_of_post id) (likes st)) eqn:E; simpl; [left; reflexivity|].
    right. exists id. split; [reflexivity|].
    unfold remove_likes_of. rewrite (filter_negb_none _ _ E). reflexivity.
Qed.

Lemma count_likes_remove_other (k id : Z) (ls : list Like) :
  k <> id -> count_likes k (remove_likes_of id ls) = count_likes k ls.
Proof.
  intros Hne. unfold count_likes, remove_likes_of. f_equal. f_equal.
  induction ls as [|l ls IH]; [reflexivity|]. cbn [filter].
  destruct (like_of_post id l) eqn:E1; cbn [negb filter].
  - unfold like_of_post in E1. apply Z.eqb_eq in E1.
    assert (like_of_post k l = false) as ->
      by (unfold like_of_post; apply Z.eqb_neq; lia).
    exact IH.
  - destruct (like_of_post k l); [f_equal|]; exact IH.
Qed.

(** X14: a delete request touches one post only. Whatever it is answered,
    a post whose key is not the one the id names is in the table afterwards
    exactly when it was before, and so is a like that references another
    post; the count of another post's likes is what it was. *)
Theorem delete_post_spares_others (c : Client) (id_param : jsstring) (st : Store)
  (k : Z) :
  parseInt id_param <> Some k ->
  (forall p, post_id p = k ->
             (In p (posts (snd (delete_post c id_param st))) <-> In p (posts st)))
  /\ (forall l, like_postId l = k ->
                (In l (likes (snd (delete_post c id_param st))) <-> In l (likes st)))
  /\ count_likes k (likes (snd (delete_post c id_param st))) = count_likes k (likes st).
Proof.
  intros Hk.
  destruct (delete_post_store c id_param st) as [-> | [id [Hp ->]]].
  - split; [|split]; [tauto | tauto | reflexivity].
  - assert (Hne : k <> id) by (intros E; apply Hk; rewrite Hp, E; reflexivity).
    simpl. split; [|split].
    + intros p Hpk. unfold remove_post. rewrite filter_In. unfold post_has_id.
      assert ((post_id p =? id) = false) as -> by (apply Z.eqb_neq; lia).
      rewrite andb_false_r. simpl. tauto.
    + intros l Hlk. unfold remove_likes_of. rewrite filter_In. unfold like_of_post.
      assert ((like_postId l =? id) = false) as -> by (apply Z.eqb_neq; lia).
      simpl. tauto.
    + apply count_likes_remove_other, Hne.
Qed.

Lemma delete_post_spares_others_witness :
  (forall p, post_id p = 2 ->
             (In p (posts (snd (delete_post (strict_client Cascade) (lit "1") tie_store)))
              <-> In p (posts tie_store)))
  /\ (forall l, like_postId l = 2 ->
                (In l (likes (snd (delete_post (strict_client Cascade) (lit "1") tie_store)))
                 <-> In l (likes tie_store)))
  /\ count_likes 2 (likes (snd (delete_post (strict_client Cascade) (lit "1") tie_store)))
     = count_likes 2 (likes tie_store).
Proof.
  apply (delete_post_spares_others (strict_client Cascade) (lit "1") tie_store 2).
  discriminate.
Defined.

(** ** The two revisions of the list endpoint *)



(** ** Keys *)

Lemma like_post_posts (id_param : jsstring) (body : object) (st : Store) :
  posts (snd (like_post id_param body st)) = posts st
  /\ post_seq (snd (like_post id_param body st)) = post_seq st.
Proof.
  run_handler. destruct (parseInt id_param) as [postId|]; [|split; reflexivity].
  destruct (truthy (get body "userId")); [|split; reflexivity].
  simpl. destruct (text_arg (get body "userId")) as [u|]; [|split; reflexivity].
  destruct (int4 postId); [|split; reflexivity]. cbn [negb].
  destruct (existsb (like_matches postId u) (likes st)); [split; reflexivity|].
  destruct (existsb (post_has_id postId) (posts st)); split; reflexivity.
Qed.

Lemma unlike_post_posts (c : Client) (id_param : jsstring) (body : object) (st : Store) :
  posts (snd (unlike_post c id_param body st)) = posts st
  /\ post_seq (snd (unlike_post c id_param body st)) = post_seq st.
Proof.
  run_handler. destruct (parseInt id_param) as [postId|]; [|split; reflexivity].
  destruct (truthy (get body "userId")); [|split; reflexivity].
  simpl. destruct (user_filter c (get body "userId")) as [f|]; [|split; reflexivity].
  destruct (int4 postId); split; reflexivity.
Qed.

(** What a request does to the posts: nothing, or it appends one post
    under the next key, or it removes the posts of one key. *)
Lemma serve_posts (c : Client) (st : Store) (req : request) (out : Response * Store) :
  serve c st req out ->
  (posts (snd out) = posts st /\ post_seq (snd out) = post_seq st)
  \/ (exists p, post_id p = post_seq st
                /\ posts (snd out) = posts st ++ [p]
                /\ post_seq (snd out) = post_seq st + 1)
  \/ (exists id, posts (snd out) = remove_post id (posts st)
                 /\ post_seq (snd out) = post_seq st).
Proof.
  intros Hs. destruct Hs as [|query out Hget|now body|id_param|id_param body|id_param body].
  - left. split; reflexivity.
  - destruct out as [r st']. destruct (get_posts_outcome c query st r st' Hget) as [-> _].
    left. split; reflexivity.
  - destruct (create_post_store now body st) as [-> | [p [Hid [_ ->]]]].
    + left. split; reflexivity.
    + right. left. exists p. split; [exact Hid | split; reflexivity].
  - destruct (delete_post_store c id_param st) as [-> | [id [_ ->]]].
    + left. split; reflexivity.
    + right. right. exists id. split; reflexivity.
  - left. apply like_post_posts.
  - left. apply unlike_post_posts.
Qed.

Lemma reaches_seq (c : Client) (st st'' : Store) :
  reaches c st st'' -> post_seq st <= post_seq st''.
Proof.
  induction 1 as [st | st req out st'' Hs _ IH]; [lia|].
  destruct (serve_posts c st req out Hs) as [[_ E] | [[p [_ [_ E]]] | [id [_ E]]]];
    rewrite E in IH; lia.
Qed.

Lemma create_post_record (now : Z) (body : object) (st : Store) (q : Post) :
  fst (create_post now body st) = respond 201 (PostJson q) -> post_id q = post_seq st.
Proof. intros H. apply (create_post_201 now body st q H). Qed.

Lemma StronglySorted_snoc {A} (R : A -> A -> Prop) (l : list A) (a : A) :
  StronglySorted R l -> Forall (fun x => R x a) l -> StronglySorted R (l ++ [a]).
Proof.
  induction 1 as [|x l Hs IH Hx]; intros Ha; simpl.
  - repeat constructor.
  - inversion Ha as [|? ? Hxa Hla]; subst. constructor; [apply IH, Hla|].
    apply Forall_app. split; [exact Hx | constructor; [exact Hxa | constructor]].
Qed.

Lemma StronglySorted_filter {A} (R : A -> A -> Prop) (f : A -> bool) (l : list A) :
  StronglySorted R l -> StronglySorted R (filter f l).
Proof.
  induction 1 as [|x l Hs IH Hx]; simpl; [constructor|].
  destruct (f x); [|exact IH]. constructor; [exact IH | apply Forall_filter, Hx].
Qed.

(** A request leaves the table in the order of its keys. *)
Lemma serve_insertion_ordered (c : Client) (st : Store) (req : request)
  (out : Response * Store) :
  wf_store st -> insertion_ordered st -> serve c st req out ->
  insertion_ordered (snd out).
Proof.
  unfold insertion_ordered. intros Hwf Hord Hs.
  destruct (serve_posts c st req out Hs)
    as [[Ep _] | [[p [Hid [Ep _]]] | [id [Ep _]]]]; rewrite Ep.
  - exact Hord.
  - apply StronglySorted_snoc; [exact Hord|].
    eapply Forall_impl; [|exact (wf_post_seq st Hwf)]. simpl. intros q Hq. lia.
  - apply StronglySorted_filter, Hord.
Qed.

(** Every table the server reaches from the empty one is in the order of
    its keys, which is the order of insertion. *)
Lemma reachable_insertion_ordered (c : Client) (st : Store) :
  reachable c st -> insertion_ordered st.
Proof.
  intros H.
  assert (Hboth : wf_store st /\ insertion_ordered st).
  { induction H as [|st req out _ [IHwf IHord] Hs].
    - split; [exact wf_empty_store | constructor].
    - split; [exact (serve_wf c st req out IHwf Hs)
             | exact (serve_insertion_ordered c st req out IHwf IHord Hs)]. }
  exact (proj2 Hboth).
Qed.

(** X16: the key of a post is never given again. Starting from a store
    that satisfies the invariant, after any sequence of requests (deletes
    among them) a post that a create request then writes has a key that
    differs from the key of every post the table held at the start. *)
Theorem post_ids_never_reused (c : Client) (st st'' : Store) (now : Z)
  (body : object) (p q : Post) :
  wf_store st ->
  reaches c st st'' ->
  In p (posts st) ->
  fst (create_post now body st'') = respond 201 (PostJson q) ->
  post_id q <> post_id p.
Proof.
  intros Hwf Hreach Hp Hq.
  pose proof (create_post_record now body st'' q Hq) as Hid.
  pose proof (reaches_seq c st st'' Hreach) as Hseq.
  pose proof (proj1 (Forall_forall _ _) (wf_post_seq st Hwf) p Hp) as Hlt.
  simpl in Hlt. lia.
Qed.

Lemma post_ids_never_reused_witness :
  post_id (mkPost 2 (lit "again") None None 2000 2000)
  <> post_id (mkPost 1 (lit "hello") None None 1000 1000).
Proof.
  apply (post_ids_never_reused (strict_client Cascade) one_post_store
           (snd (delete_post (strict_client Cascade) (lit "1") one_post_store))
           2000 [("content"%string, VStr (lit "again"))]
           (mkPost 1 (lit "hello") None None 1000 1000)
           (mkPost 2 (lit "again") None None 2000 2000)).
  - constructor; simpl; repeat constructor; simpl; try tauto; try discriminate; lia.
  - exact (reaches_serve (strict_client Cascade) one_post_store
             (DeletePost (lit "1"))
             (delete_post (strict_client Cascade) (lit "1") one_post_store)
             _
             (serve_delete_post (strict_client Cascade) one_post_store (lit "1"))
             (reaches_here (strict_client Cascade) _)).
  - left. reflexivity.
  - reflexivity.
Defined.

Lemma serve_keys_from_one (c : Client) (st : Store) (req : request)
  (out : Response * Store) :
  keys_from_one st -> serve c st req out -> keys_from_one (snd out).
Proof.
  intros [Hseq Hall] Hs. unfold keys_from_one.
  destruct (serve_posts c st req out Hs)
    as [[Ep Es] | [[p [Hid [Ep Es]]] | [id [Ep Es]]]]; rewrite Ep, Es.
  - split; assumption.
  - split; [lia|]. apply Forall_app. split; [exact Hall|].
    constructor; [lia | constructor].
  - split; [exact Hseq|]. apply Forall_filter, Hall.
Qed.

Lemma reachable_keys_from_one (c : Client) (st : Store) :
  reachable c st -> keys_from_one st.
Proof.
  induction 1 as [|st req out _ IH Hs].
  - split; [simpl; lia | constructor].
  - exact (serve_keys_from_one c st req out IH Hs).
Qed.

(** X17: an id that reads as zero or as a negative number of the key
    column's range passes the handler's check and reaches the storage: on
    every store the server reaches from the empty one, the delete request is
    answered 404, not 400, and the store is left as it was. *)
Theorem delete_nonpositive_id (c : Client) (st : Store) (id_param : jsstring) (id : Z) :
  reachable c st ->
  parseInt id_param = Some id ->
  -2147483648 <= id ->
  id <= 0 ->
  delete_post c id_param st = (respond 404 (ErrorJson "投稿が見つかりません"), st).
Proof.
  intros Hreach Hp Hlo Hid.
  apply (delete_post_missing c id_param st id Hp).
  - unfold int4. apply andb_true_iff. split; apply Z.leb_le; lia.
  - apply existsb_false_forall. intros p Hin.
    destruct (reachable_keys_from_one c st Hreach) as [_ Hall].
    pose proof (proj1 (Forall_forall _ _) Hall p Hin) as Hge. simpl in Hge.
    unfold post_has_id. apply andb_false_iff. right. apply Z.eqb_neq. lia.
Qed.

Lemma delete_nonpositive_id_witness :
  delete_post (strict_client Cascade) (lit "-5") empty_store
  = (respond 404 (ErrorJson "投稿が見つかりません"), empty_store).
Proof.
  apply (delete_nonpositive_id (strict_client Cascade) empty_store (lit "-5") (-5)).
  - exact (reach_empty (strict_client Cascade)).
  - reflexivity.
  - lia.
  - lia.
Defined.

(** Below the range of the key column the delete is answered 500. *)
Example delete_post_below_range :
  delete_post (strict_client Cascade) (lit "-2147483649") empty_store
  = (respond 500 (ErrorJson "投稿の削除に失敗しました"), empty_store).
Proof. reflexivity. Qed.

(** ** The likeCounts of a list *)

Lemma likes_referencing_nil (ps : list Post) : likes_referencing ps [] = 0.
Proof.
  induction ps as [|p ps IH]; simpl; [reflexivity|]. rewrite IH. reflexivity.
Qed.

Lemma likes_referencing_missing (ps : list Post) (l : Like) (ls : list Like) :
  (forall p, In p ps -> post_id p <> like_postId l) ->
  likes_referencing ps (l :: ls) = likes_referencing ps ls.
Proof.
  induction ps as [|p ps IH]; cbn [likes_referencing fold_right]; [reflexivity|].
  intros H.
  fold (likes_referencing ps (l :: ls)). fold (likes_referencing ps ls).
  rewrite (IH (fun x Hx => H x (or_intror Hx))). unfold count_likes. cbn [filter].
  pose proof (H p (or_introl eq_refl)) as Hp.
  assert (like_of_post (post_id p) l = false) as ->
    by (unfold like_of_post; apply Z.eqb_neq; lia).
  reflexivity.
Qed.

(** A like that references a post of a table with distinct keys counts
    once. *)
Lemma likes_referencing_cons (ps : list Post) (l : Like) (ls : list Like) :
  NoDup (map post_id ps) ->
  existsb (post_has_id (like_postId l)) ps = true ->
  likes_referencing ps (l :: ls) = likes_referencing ps ls + 1.
Proof.
  intros Hd Hex. pose proof (post_has_id_range _ _ Hex) as Hr. revert Hd Hex.
  induction ps as [|p ps IH]; cbn [likes_referencing fold_right existsb map];
    [discriminate|].
  intros Hd Hex. inversion Hd as [|? ? Hn Hd']; subst.
  fold (likes_referencing ps (l :: ls)). fold (likes_referencing ps ls).
  destruct (post_has_id (like_postId l) p) eqn:Hp;
    unfold post_has_id in Hp; rewrite Hr in Hp; cbn [andb] in Hp.
  - apply Z.eqb_eq in Hp.
    rewrite (likes_referencing_missing ps l ls).
    + unfold count_likes. cbn [filter].
      assert (like_of_post (post_id p) l = true) as ->
        by (unfold like_of_post; apply Z.eqb_eq; lia).
      cbn [List.length]. rewrite Nat2Z.inj_succ. lia.
    + intros x Hx E. apply Hn. rewrite Hp, <- E. apply in_map, Hx.
  - cbn [orb] in Hex. rewrite (IH Hd' Hex).
    apply Z.eqb_neq in Hp.
    unfold count_likes. cbn [filter].
    assert (like_of_post (post_id p) l = false) as ->
      by (unfold like_of_post; apply Z.eqb_neq; lia).
    lia.
Qed.

Lemma likes_referencing_all (ps : list Post) (ls : list Like) :
  NoDup (map post_id ps) ->
  Forall (fun l => existsb (post_has_id (like_postId l)) ps = true) ls ->
  likes_referencing ps ls = Z.of_nat (List.length ls).
Proof.
  intros Hd Hall. induction Hall as [|l ls Hl _ IH].
  - apply likes_referencing_nil.
  - rewrite (likes_referencing_cons ps l ls Hd Hl), IH.
    cbn [List.length]. rewrite Nat2Z.inj_succ. lia.
Qed.

Lemma likes_referencing_perm (ps ps' : list Post) (ls : list Like) :
  Permutation ps ps' -> likes_referencing ps ls = likes_referencing ps' ls.
Proof.
  induction 1 as [|p ps ps' _ IH|p q ps|ps ps' ps'' _ IH1 _ IH2];
    cbn [likes_referencing fold_right].
  - reflexivity.
  - fold (likes_referencing ps ls). fold (likes_referencing ps' ls). rewrite IH.
    reflexivity.
  - lia.
  - rewrite IH1. exact IH2.
Qed.

Lemma sum_like_counts_views (st : Store) (liked : Z -> bool) (ps : list Post) :
  sum_like_counts (map (view_by st liked) ps) = likes_referencing ps (likes st).
Proof.
  induction ps as [|p ps IH]; [reflexivity|].
  cbn [map sum_like_counts fold_right likes_referencing].
  fold (sum_like_counts (map (view_by st liked) ps)).
  fold (likes_referencing ps (likes st)). rewrite IH. reflexivity.
Qed.

(** X18: on a store that satisfies the invariant, the likeCount fields of
    every list the list endpoint answers with add up to the number of rows
    of the [Like] table: every like is counted, and counted for one post. *)
Theorem like_counts_add_up (c : Client) (query : object) (st : Store)
  (r : Response) (st' : Store) (vs : list PostView) :
  wf_store st ->
  get_posts c query st (r, st') ->
  body r = ViewsJson vs ->
  sum_like_counts vs = Z.of_nat (List.length (likes st)).
Proof.
  intros Hwf Hget Hbody.
  destruct (get_posts_outcome c query st r st' Hget) as [_ [Hr | [liked Hr]]];
    subst r; simpl in Hbody; [discriminate|].
  injection Hbody as Hvs. subst vs.
  rewrite sum_like_counts_views,
    (likes_referencing_perm (listed st) (posts st) _ (listed_perm st)).
  apply likes_referencing_all; [apply (wf_post_ids st Hwf) | apply (wf_like_post st Hwf)].
Qed.

Lemma like_counts_add_up_witness :
  sum_like_counts [mkPostView 1 (lit "hello") None None 1000 1000 1 true]
  = Z.of_nat (List.length (likes liked_store)).
Proof.
  apply (like_counts_add_up (strict_client Cascade)
           [("userId"%string, VStr (lit "u1"))] liked_store
           (respond 200 (ViewsJson [mkPostView 1 (lit "hello") None None 1000 1000 1 true]))
           liked_store
           [mkPostView 1 (lit "hello") None None 1000 1000 1 true]).
  - exact wf_liked_store.
  - exact get_posts_liked.
  - reflexivity.
Defined.

(** ** More round trips and edge cases *)

Lemma remove_post_fresh (id : Z) (ps : list Post) (p : Post) :
  int4 id = true ->
  Forall (fun q => post_id q < id) ps ->
  post_id p = id ->
  remove_post id (ps ++ [p]) = ps.
Proof.
  intros Hr Hall Hid. unfold remove_post. rewrite filter_app. simpl.
  unfold post_has_id at 2. rewrite Hr, Hid, Z.eqb_refl. simpl. rewrite app_nil_r.
  apply filter_all. intros q Hq.
  pose proof (proj1 (Forall_forall _ _) Hall q Hq) as Hlt. simpl in Hlt.
  unfold post_has_id. rewrite Hr. apply negb_true_iff, Z.eqb_neq. lia.
Qed.

(** X19: creating a post and deleting it again undoes the create. On a
    store that satisfies the invariant, after a create request that was
    answered 201 with a record, the delete request whose id reads as the
    record's id is answered 200, and both tables are as they were before the
    create (only the post's key is spent), whatever the storage does with
    the likes of a deleted post. *)
Theorem create_then_delete (c : Client) (now : Z) (body : object) (st : Store)
  (p : Post) (id_param : jsstring) :
  wf_store st ->
  fst (create_post now body st) = respond 201 (PostJson p) ->
  parseInt id_param = Some (post_id p) ->
  delete_post c id_param (snd (create_post now body st))
  = (respond 200 (MessageJson "投稿を削除しました"), post_key_spent st).
Proof.
  intros Hwf H201 Hp.
  destruct (create_post_201 now body st p H201) as [Hst [Hid [Hr _]]].
  rewrite Hst. rewrite Hid in Hp.
  assert (Hnolike : existsb (like_of_post (post_seq st)) (likes st) = false).
  { apply existsb_false_forall. intros l Hl. unfold like_of_post.
    apply Z.eqb_neq. apply (no_like_of_next_post st l Hwf Hl). }
  rewrite (delete_post_done c id_param _ (post_seq st) Hp).
  - simpl. unfold post_key_spent. f_equal. f_equal.
    + apply remove_post_fresh; [exact Hr | apply (wf_post_seq st Hwf) | exact Hid].
    + unfold remove_likes_of. apply filter_negb_none, Hnolike.
  - simpl. rewrite existsb_app. simpl. unfold post_has_id at 2.
    rewrite Hr, Hid, Z.eqb_refl. simpl. rewrite orb_true_r. reflexivity.
  - right. exact Hnolike.
Qed.

Lemma create_then_delete_witness :
  delete_post (strict_client Restrict) (lit "2")
    (snd (create_post 2000 [("content"%string, VStr (lit "again"))] liked_store))
  = (respond 200 (MessageJson "投稿を削除しました"), post_key_spent liked_store).
Proof.
  apply (create_then_delete (strict_client Restrict) 2000
           [("content"%string, VStr (lit "again"))] liked_store
           (mkPost 2 (lit "again") None None 2000 2000) (lit "2")).
  - exact wf_liked_store.
  - reflexivity.
  - reflexivity.
Defined.

(** X20: the count a like or unlike request answers with is taken after
    the write: whenever the answer carries a likeCount, it is the number of
    likes that reference the post in the store the request leaves, and
    isLiked is true with status 201 for a like and false with status 200 for
    an unlike. *)
Theorem like_count_is_current (c : Client) (id_param : jsstring) (body : object)
  (st : Store) (postId n : Z) (b : bool) (code : Z) :
  parseInt id_param = Some postId ->
  (fst (like_post id_param body st) = respond code (LikeJson n b) ->
   n = count_likes postId (likes (snd (like_post id_param body st)))
   /\ b = true /\ code = 201)
  /\ (fst (unlike_post c id_param body st) = respond code (LikeJson n b) ->
      n = count_likes postId (likes (snd (unlike_post c id_param body st)))
      /\ b = false /\ code = 200).
Proof.
  intros Hp. split.
  - run_handler. rewrite Hp.
    destruct (truthy (get body "userId")); [|simpl; discriminate].
    simpl. destruct (text_arg (get body "userId")) as [u|]; [|simpl; discriminate].
    destruct (int4 postId); cbn [negb]; [|simpl; discriminate].
    destruct (existsb (like_matches postId u) (likes st)); [simpl; discriminate|].
    destruct (existsb (post_has_id postId) (posts st)); simpl; [|discriminate].
    intros H. injection H as Hc Hn Hb. subst. auto.
  - run_handler. rewrite Hp.
    destruct (truthy (get body "userId")); [|simpl; discriminate].
    simpl. destruct (user_filter c (get body "userId")) as [f|]; simpl; [|discriminate].
    destruct (int4 postId); simpl; [|discriminate].
    intros H. injection H as Hc Hn Hb. subst. auto.
Qed.

Lemma like_count_is_current_witness :
  (fst (like_post (lit "1") [("userId"%string, VStr (lit "u2"))] liked_store)
   = respond 201 (LikeJson 2 true) ->
   2 = count_likes 1
         (likes (snd (like_post (lit "1") [("userId"%string, VStr (lit "u2"))] liked_store)))
   /\ true = true /\ 201 = 201)
  /\ (fst (unlike_post (strict_client Cascade) (lit "1")
             [("userId"%string, VStr (lit "u2"))] liked_store)
      = respond 201 (LikeJson 2 true) ->
      2 = count_likes 1
            (likes (snd (unlike_post (strict_client Cascade) (lit "1")
                           [("userId"%string, VStr (lit "u2"))] liked_store)))
      /\ true = false /\ 201 = 200).
Proof.
  apply (like_count_is_current (strict_client Cascade) (lit "1")
           [("userId"%string, VStr (lit "u2"))] liked_store 1 2 true 201).
  reflexivity.
Defined.

Lemma trimStart_white_prefix (ws s : jsstring) :
  forallb is_white_space ws = true -> trimStart (ws ++ s) = trimStart s.
Proof.
  induction ws as [|w ws IH]; simpl; [reflexivity|].
  intros H. apply andb_true_iff in H. destruct H as [-> Hws]. apply IH, Hws.
Qed.

(** X21: white space before the id is skipped. For a path segment that
    begins with white space (a decoded [%20], say), [parseInt] reads what
    follows it, and the delete, like and unlike handlers answer and change
    the store as they do for the segment without the white space. *)
Theorem id_with_leading_space (c : Client) (ws s : jsstring) (body : object)
  (st : Store) :
  forallb is_white_space ws = true ->
  parseInt (ws ++ s) = parseInt s
  /\ delete_post c (ws ++ s) st = delete_post c s st
  /\ like_post (ws ++ s) body st = like_post s body st
  /\ unlike_post c (ws ++ s) body st = unlike_post c s body st.
Proof.
  intros Hws.
  assert (Heq : parseInt (ws ++ s) = parseInt s).
  { unfold parseInt. rewrite (trimStart_white_prefix ws s Hws). reflexivity. }
  split; [exact Heq|]. exact (handlers_by_parsed c _ _ body st Heq).
Qed.

Lemma id_with_leading_space_witness :
  parseInt (lit " 1") = parseInt (lit "1")
  /\ delete_post (strict_client Cascade) (lit " 1") one_post_store
     = delete_post (strict_client Cascade) (lit "1") one_post_store
  /\ like_post (lit " 1") [("userId"%string, VStr (lit "u1"))] one_post_store
     = like_post (lit "1") [("userId"%string, VStr (lit "u1"))] one_post_store
  /\ unlike_post (strict_client Cascade) (lit " 1")
       [("userId"%string, VStr (lit "u1"))] one_post_store
     = unlike_post (strict_client Cascade) (lit "1")
         [("userId"%string, VStr (lit "u1"))] one_post_store.
Proof.
  apply (id_with_leading_space (strict_client Cascade) (lit " ") (lit "1")
           [("userId"%string, VStr (lit "u1"))] one_post_store).
  reflexivity.
Defined.
